(** * backtor-restic: the Restic worker of Backtor (src/main.go)

    A shallow embedding of [main.go]: the two Conductor task handlers
    [backupTask] and [removeTask], the repository initialiser [initRepo],
    the helpers [createNewBackup] and [deleteBackup], and [main].

    Go strings are byte strings ([string]); [map[string]interface{}] is a
    [gmap string Value]; [time.Duration] and [int] are 64-bit signed
    integers carried in [Z] with their wrap-around written out; a Go
    function that may panic, and that runs deferred calls on the way out,
    is a state transformer returning an [Outcome].  Calls to [logrus] only
    write log lines and are left out. *)

From Stdlib Require Import ZArith Ascii String List Bool Lia.
From Stdlib Require Import SpecFloat.
From stdpp Require Import base option gmap strings.

Local Open Scope string_scope.
Local Open Scope Z_scope.

(** ** Machine integers *)

Module Int64.

Definition min_int : Z := - 2 ^ 63.
Definition max_int : Z := 2 ^ 63 - 1.

Definition in_range (z : Z) : bool := (min_int <=? z) && (z <=? max_int).

(** Two's complement wrap-around of a mathematical integer. *)
Definition wrap (z : Z) : Z := (z + 2 ^ 63) mod 2 ^ 64 - 2 ^ 63.

Definition mul (a b : Z) : Z := wrap (a * b).

End Int64.

(** ** [time.Duration]: a count of nanoseconds in an [int64] *)

Module Duration.

Definition t : Type := Z.

Definition Second : t := 1000000000.
Definition Minute : t := 60 * Second.

End Duration.

(** ** Dynamic values held in [interface{}]

    [InputData] is decoded from JSON by [encoding/json], which produces
    [nil], [bool], [float64], [string], [[]interface{}] and
    [map[string]interface{}].  [OutputData] built by this program also holds
    an [int].  A [float64] is its IEEE 754 description [spec_float]. *)

#[warnings="-register-all"]
Inductive Value : Type :=
| VNil
| VBool (b : bool)
| VFloat64 (f : spec_float)
| VInt (n : Z)
| VString (s : string)
| VSlice (l : list Value)
| VMap (m : list (string * Value)).

(** The dynamic types a failed type assertion reports. *)
Inductive GoType : Type :=
| TNil | TBool | TFloat64 | TInt | TString | TSlice | TMap.

Definition dynamic_type (v : Value) : GoType :=
  match v with
  | VNil => TNil
  | VBool _ => TBool
  | VFloat64 _ => TFloat64
  | VInt _ => TInt
  | VString _ => TString
  | VSlice _ => TSlice
  | VMap _ => TMap
  end.

(** ** Conversion [int(f)] of a [float64]

    The fraction is discarded (truncation towards zero).  When the value
    does not fit the result type the Go specification leaves the result to
    the implementation; it is the parameter [unrepresentable] here. *)

Definition float64_trunc (f : spec_float) : option Z :=
  match f with
  | S754_zero _ => Some 0
  | S754_finite s m e =>
      let a := match e with
               | Zneg p => Z.pos m / 2 ^ Zpos p
               | _ => Z.pos m * 2 ^ e
               end in
      Some (if s then - a else a)
  | S754_infinity _ | S754_nan => None
  end.

Definition int_of_float64 (unrepresentable : spec_float -> Z) (f : spec_float) : Z :=
  match float64_trunc f with
  | Some z => if Int64.in_range z then z else Int64.wrap (unrepresentable f)
  | None => Int64.wrap (unrepresentable f)
  end.

(** ** The two regular expressions

    Both patterns of [main.go] have the shape [pre ([0-9a-zA-z]+) post]: a
    literal, one capture group that is a greedy repetition of a character
    class, and a literal.  [FindStringSubmatch] returns [nil] when there is
    no match and otherwise the leftmost match followed by its capture
    group; among the matches at the leftmost position, the greedy
    repetition takes the longest run that still lets [post] match.  The
    patterns and the class are ASCII, so matching bytes and matching UTF-8
    runes agree. *)

Module Regexp.

Record t : Type := Compile {
  pre : string;
  class : ascii -> bool;
  post : string
}.

(** The class [[0-9a-zA-z]] as written in the source: the third range
    runs from [A] to lower-case [z]. *)
Definition class_0_9a_zA_z (c : ascii) : bool :=
  let n := nat_of_ascii c in
  ((48 <=? n) && (n <=? 57) || (97 <=? n) && (n <=? 122)
   || (65 <=? n) && (n <=? 122))%nat.

(** [strip p s] is what follows [p] when [s] starts with [p]. *)
Fixpoint strip (p s : string) : option string :=
  match p, s with
  | EmptyString, _ => Some s
  | String a p', String b s' =>
      if Ascii.eqb a b then strip p' s' else None
  | String _ _, EmptyString => None
  end.

(** The longest prefix of [s] made of class characters, and the rest. *)
Fixpoint span (cl : ascii -> bool) (s : string) : string * string :=
  match s with
  | EmptyString => (EmptyString, EmptyString)
  | String c s' =>
      if cl c then let '(run, rest) := span cl s' in (String c run, rest)
      else (EmptyString, s)
  end.

(** Greedy repetition with backtracking: try the first [k] characters of
    the run as the group, from the longest down to one character. *)
Fixpoint group_from (k : nat) (po run rest : string) : option string :=
  match k with
  | O => None
  | S k' =>
      let g := substring 0 k run in
      let after := substring k (String.length run - k) run ++ rest in
      match strip po after with
      | Some _ => Some g
      | None => group_from k' po run rest
      end
  end.

(** A match that starts at the first byte of [s]. *)
Definition match_here (r : t) (s : string) : option string :=
  match strip (pre r) s with
  | None => None
  | Some s1 =>
      let '(run, rest) := span (class r) s1 in
      group_from (String.length run) (post r) run rest
  end.

(** The capture group of the leftmost match. *)
Fixpoint find (r : t) (s : string) : option string :=
  match match_here r s with
  | Some g => Some g
  | None =>
      match s with
      | EmptyString => None
      | String _ s' => find r s'
      end
  end.

Definition FindStringSubmatch (r : t) (s : string) : list string :=
  match find r s with
  | Some g => [pre r ++ g ++ post r; g]
  | None => []
  end.

(** The pattern read as a set of strings: an occurrence is a copy of
    [pre], a non-empty run of class characters and a copy of [post]. *)

(** Every character of [g] is in the class. *)
Fixpoint all_in (cl : ascii -> bool) (g : string) : bool :=
  match g with
  | EmptyString => true
  | String c g' => cl c && all_in cl g'
  end.

(** [s] starts with an occurrence of the pattern whose group is [g]. *)
Definition matches_at (r : t) (s g : string) : Prop :=
  g <> EmptyString /\ all_in (class r) g = true /\
  exists rest, s = pre r ++ g ++ post r ++ rest.

(** [s] holds an occurrence of the pattern somewhere. *)
Definition occurs (r : t) (s : string) : Prop :=
  exists before tail g, s = before ++ tail /\ matches_at r tail g.

(** In the text [before ++ tail] no occurrence of the pattern starts
    within [before]. *)
Definition none_starts_in (r : t) (before tail : string) : Prop :=
  forall b1 b2 g,
    before = b1 ++ b2 -> b2 <> EmptyString -> ~ matches_at r (b2 ++ tail) g.

(** The same, decided by trying every position of [before]. *)
Fixpoint no_match_before (r : t) (before tail : string) : bool :=
  match before with
  | EmptyString => true
  | String _ b =>
      match match_here r (before ++ tail) with
      | Some _ => false
      | None => no_match_before r b tail
      end
  end.

End Regexp.

(** [regexp.Compile("snapshot ([0-9a-zA-z]+) saved")] *)
Definition rexSaved : Regexp.t :=
  Regexp.Compile "snapshot " Regexp.class_0_9a_zA_z " saved".

(** [regexp.Compile("removed snapshot ([0-9a-zA-z]+)")] *)
Definition rexRemoved : Regexp.t :=
  Regexp.Compile "removed snapshot " Regexp.class_0_9a_zA_z EmptyString.

(** ** Errors

    A Go [error] is carried by its message.  The messages built with
    [fmt.Errorf] in [main.go], under the names of the failure kinds they
    signal. *)

Definition error : Type := string.

Module Errors.

(** [fmt.Errorf("'backupName' is required as Input data")] *)
Definition MissingField : error :=
  "'backupName' is required as Input data".

(** [fmt.Errorf("Source backup dir %s doesn't exist", sourceDir)] *)
Definition SourceNotFound (sourceDir : string) : error :=
  "Source backup dir " ++ sourceDir ++ " doesn't exist".

(** [fmt.Errorf("Couldn't find returned id from response")] *)
Definition ResultNotFound : error :=
  "Couldn't find returned id from response".

(** [fmt.Errorf("Returned id from forget is different from requested. %s != %s", id[1], dataID)] *)
Definition IdentifierMismatch (got dataID : string) : error :=
  "Returned id from forget is different from requested. "
  ++ got ++ " != " ++ dataID.

End Errors.

(** ** Conductor tasks

    The fields of [task.Task] and [task.TaskResult] (package
    [conductor-go-client/task]) that this program reads or writes. *)

Inductive TaskResultStatus : Type := IN_PROGRESS | FAILED | COMPLETED.

Record Task : Type := {
  TaskId : string;
  InputData : gmap string Value
}.

Record TaskResult : Type := {
  ResultTaskId : string;
  Status : TaskResultStatus;
  OutputData : gmap string Value
}.

Definition NewTaskResult (t : Task) : TaskResult :=
  {| ResultTaskId := TaskId t; Status := IN_PROGRESS; OutputData := ∅ |}.

Definition with_OutputData (o : gmap string Value) (tr : TaskResult) : TaskResult :=
  {| ResultTaskId := ResultTaskId tr; Status := Status tr; OutputData := o |}.

Definition with_Status (st : TaskResultStatus) (tr : TaskResult) : TaskResult :=
  {| ResultTaskId := ResultTaskId tr; Status := st; OutputData := OutputData tr |}.

(** ** The outside world

    The shell helpers [ExecShellf] and [ExecShellfTimeout] are called by
    [main.go] but defined elsewhere; the commands they run, the file system
    and the platform are parameters of the development. *)

(** What [os.Stat] may fail with: the path does not exist, or anything
    else (permissions, I/O). *)
Inductive StatError : Type := ENOENT | EOther (msg : string).

(** [os.IsNotExist(err)] *)
Definition IsNotExist (err : option StatError) : bool :=
  match err with
  | Some ENOENT => true
  | _ => false
  end.

Record Env : Type := {
  World : Type;
  (** Running a command line to completion: its output and its error. *)
  run : string -> World -> (string * option error) * World;
  (** The same under a deadline. *)
  run_timeout : Duration.t -> string -> World -> (string * option error) * World;
  (** The error of [os.Stat] on a path. *)
  stat : string -> World -> option StatError;
  (** The result of [int(f)] when [f] does not fit an [int]. *)
  unrepresentable : spec_float -> Z
}.

(** What the program does to the outside, in order. *)
Inductive Event : Type :=
| EvExecShell (cmd : string)
| EvExecShellTimeout (timeout : Duration.t) (cmd : string)
| EvStat (path : string)
| EvStart (taskType : string) (wait : bool).

(** ** Panics and outcomes *)

Inductive PanicValue : Type :=
| TypeAssertionError (dynamic asserted : GoType)
| IndexOutOfRange (index len : nat)
| PanicInt (n : Z)
| UnlockOfUnlockedMutex.

(** A call returns, panics, or does not return: it waits for the mutex, or
    it stays in the poller that [Start] was told to wait in. *)
Inductive Outcome (A : Type) : Type :=
| Returned (a : A)
| Panicked (p : PanicValue)
| Blocked.

Arguments Returned {A} a.
Arguments Panicked {A} p.
Arguments Blocked {A}.

(** ** The program *)

Section Program.

Context {E : Env}.

(** The package-level variables of [main.go], the outside world, and the
    record of what has been done to it.  [repoLock] is [true] while the
    mutex is held. *)
Record State : Type := mkState {
  sourcePath : string;
  repoDir : string;
  resticPassword : string;
  repoLock : bool;
  world : World E;
  trace : list Event
}.

Definition set_repoLock (b : bool) (s : State) : State :=
  mkState (sourcePath s) (repoDir s) (resticPassword s) b (world s) (trace s).

Definition set_world (w : World E) (s : State) : State :=
  mkState (sourcePath s) (repoDir s) (resticPassword s) (repoLock s) w (trace s).

Definition emit (ev : Event) (s : State) : State :=
  mkState (sourcePath s) (repoDir s) (resticPassword s) (repoLock s) (world s)
          (trace s ++ [ev]).

Definition set_sourcePath (p : string) (s : State) : State :=
  mkState p (repoDir s) (resticPassword s) (repoLock s) (world s) (trace s).

Definition set_repoDir (p : string) (s : State) : State :=
  mkState (sourcePath s) p (resticPassword s) (repoLock s) (world s) (trace s).

Definition set_resticPassword (p : string) (s : State) : State :=
  mkState (sourcePath s) (repoDir s) p (repoLock s) (world s) (trace s).

(** *** Go statements as state transformers *)

Definition M (A : Type) : Type := State -> Outcome A * State.

Definition ret {A} (a : A) : M A := fun s => (Returned a, s).

Definition bind {A B} (m : M A) (k : A -> M B) : M B := fun s =>
  match m s with
  | (Returned a, s') => k a s'
  | (Panicked p, s') => (Panicked p, s')
  | (Blocked, s') => (Blocked, s')
  end.

Definition panic {A} (p : PanicValue) : M A := fun s => (Panicked p, s).

Definition gets {A} (f : State -> A) : M A := fun s => (Returned (f s), s).

Definition modify (f : State -> State) : M unit := fun s => (Returned tt, f s).

(** [defer d] followed by [body]: [d] runs when [body] returns and when
    it panics; a panic of [body] goes on after [d]. *)
Definition defer {A} (d : M unit) (body : M A) : M A := fun s =>
  match body s with
  | (Blocked, s') => (Blocked, s')
  | (r, s') =>
      match d s' with
      | (Returned _, s'') => (r, s'')
      | (Panicked p, s'') => (Panicked p, s'')
      | (Blocked, s'') => (Blocked, s'')
      end
  end.

End Program.

Arguments State : clear implicits.
Arguments M : clear implicits.

Declare Scope go_scope.
Delimit Scope go_scope with go.

Notation "'let*' x ':=' m 'in' k" := (bind m (fun x => k))
  (at level 10, x name, m at level 200, k at level 200,
   format "'[v' 'let*'  x  ':='  m  'in' '/' k ']'") : go_scope.
Notation "'let*' ' pat ':=' m 'in' k" :=
  (bind m (fun x => match x with pat => k end))
  (at level 10, pat pattern, m at level 200, k at level 200,
   format "'[v' 'let*'  ' pat  ':='  m  'in' '/' k ']'") : go_scope.

Section Operations.

Context {E : Env}.

Local Open Scope go_scope.

(** [repoLock.Lock()] *)
Definition Lock : M E unit := fun s =>
  if repoLock s then (Blocked, s) else (Returned tt, set_repoLock true s).

(** [repoLock.Unlock()] *)
Definition Unlock : M E unit := fun s =>
  if repoLock s then (Returned tt, set_repoLock false s)
  else (Panicked UnlockOfUnlockedMutex, s).

(** The type assertions [v.(string)] and [v.(float64)]. *)
Definition assert_string (v : Value) : M E string :=
  match v with
  | VString x => ret x
  | _ => panic (TypeAssertionError (dynamic_type v) TString)
  end.

Definition assert_float64 (v : Value) : M E spec_float :=
  match v with
  | VFloat64 f => ret f
  | _ => panic (TypeAssertionError (dynamic_type v) TFloat64)
  end.

(** The index expression [l[i]]. *)
Definition index (l : list string) (i : nat) : M E string :=
  match l !! i with
  | Some x => ret x
  | None => panic (IndexOutOfRange i (length l))
  end.

(** Modelled from the spec: [ExecShellf], defined outside [main.go].
    "Formats a command line from a template and positional arguments",
    runs it with an unbounded wait and returns the captured output and
    an error for a failed run.  [cmd] is the formatted command line. *)
Definition ExecShellf (cmd : string) : M E (string * option error) := fun s =>
  let '(r, w) := run E cmd (world s) in
  (Returned r, set_world w (emit (EvExecShell cmd) s)).

(** Modelled from the spec: [ExecShellfTimeout], defined outside
    [main.go]; as [ExecShellf] with a deadline after which the command is
    terminated and an error returned. *)
Definition ExecShellfTimeout (timeout : Duration.t) (cmd : string)
  : M E (string * option error) := fun s =>
  let '(r, w) := run_timeout E timeout cmd (world s) in
  (Returned r, set_world w (emit (EvExecShellTimeout timeout cmd) s)).

(** [os.Stat(path)], keeping the error only. *)
Definition os_Stat (path : string) : M E (option StatError) := fun s =>
  (Returned (stat E path (world s)), emit (EvStat path) s).

(** [c.Start(taskType, handler, wait)] on the Conductor worker
    (package [conductor-go-client]): polling for tasks of that type begins
    in the background; with [wait] the call then waits without end and
    does not return. *)
Definition Start (taskType : string) (wait : bool) : M E unit := fun s =>
  (if wait then Blocked else Returned tt, emit (EvStart taskType wait) s).

End Operations.

(** ** [main.go] *)

Section Main.

Context {E : Env}.

Local Open Scope go_scope.

(** Lines 173-201. *)
Definition createNewBackup (backupName : string) (createTimeout : Duration.t)
  : M E (string * Z * option error) :=
  let sourceDir := "/backup-source/" ++ backupName in
  let* err := os_Stat sourceDir in
  if IsNotExist err then
    ret (EmptyString, -1, Some (Errors.SourceNotFound sourceDir))
  else
    let* repo := gets repoDir in
    let* '(result, err) :=
      ExecShellfTimeout createTimeout
        ("restic backup " ++ sourceDir ++ " -r " ++ repo) in
    match err with
    | Some e => ret (EmptyString, -1, Some e)
    | None =>
        let id := Regexp.FindStringSubmatch rexSaved result in
        (* success := (len(id) == 2) only selects a log line *)
        let* dataID := index id 1 in
        let dataSizeMB := 111 in
        ret (dataID, dataSizeMB, None)
    end.

(** Lines 203-224. *)
Definition deleteBackup (dataID : string) : M E (option error) :=
  let* repo := gets repoDir in
  let* '(result, err) :=
    ExecShellf ("restic forget " ++ dataID ++ " -r " ++ repo) in
  match err with
  | Some e => ret (Some e)
  | None =>
      let id := Regexp.FindStringSubmatch rexRemoved result in
      if negb (length id =? 2)%nat then ret (Some Errors.ResultNotFound)
      else
        let* got := index id 1 in
        if negb (String.eqb got dataID) then
          ret (Some (Errors.IdentifierMismatch got dataID))
        else ret None
  end.

(** Lines 90-95: [createTimeout]. *)
Definition resolveCreateTimeout (t : Task) : M E Duration.t :=
  match InputData t !! "timeoutSeconds" with
  | Some to =>
      let* timeout := assert_float64 to in
      ret (Int64.mul (int_of_float64 (unrepresentable E) timeout) Duration.Second)
  | None => ret (1 * Duration.Minute)
  end.

(** Lines 77-116.  The named results [tr] and [err] are [nil] where the
    source returns them unassigned. *)
Definition backupTask (t : Task) : M E (option TaskResult * option error) :=
  let* _ := Lock in
  defer Unlock (
    match InputData t !! "backupName" with
    | None => ret (None, Some Errors.MissingField)
    | Some bn =>
        let* backupName := assert_string bn in
        let* createTimeout := resolveCreateTimeout t in
        let* repo := gets repoDir in
        let* '(_, err2) := ExecShellf ("restic -r " ++ repo ++ " unlock") in
        match err2 with
        | Some e => ret (None, Some e)
        | None =>
            let* '(dataID, dataSizeMB, err) :=
              createNewBackup backupName createTimeout in
            match err with
            | Some e => ret (None, Some e)
            | None =>
                let tr := NewTaskResult t in
                let output : gmap string Value :=
                  <["dataSizeMB" := VInt dataSizeMB]>
                    (<["dataId" := VString dataID]> ∅) in
                ret (Some (with_Status COMPLETED (with_OutputData output tr)),
                     None)
            end
        end
    end).

(** Lines 118-152. *)
Definition removeTask (t : Task) : M E (option TaskResult * option error) :=
  let* _ := Lock in
  defer Unlock (
    match InputData t !! "backupName" with
    | None => ret (None, Some Errors.MissingField)
    | Some bn =>
        let* backupName := assert_string bn in
        match InputData t !! "dataId" with
        | None => ret (None, Some Errors.MissingField)
        | Some di =>
            let* dataID := assert_string di in
            let* repo := gets repoDir in
            let* '(_, err2) := ExecShellf ("restic -r " ++ repo ++ " unlock") in
            match err2 with
            | Some e => ret (None, Some e)
            | None =>
                let* err := deleteBackup dataID in
                match err with
                | Some e => ret (None, Some e)
                | None =>
                    let tr := NewTaskResult t in
                    let output : gmap string Value := ∅ in
                    ret (Some (with_Status COMPLETED (with_OutputData output tr)),
                         None)
                end
            end
        end
    end).

(** Lines 154-171. *)
Definition initRepo : M E (option error) :=
  let* _ := Lock in
  defer Unlock (
    let* repo := gets repoDir in
    let* '(result, err) := ExecShellf ("restic snapshots -r " ++ repo) in
    match err with
    | Some _ =>
        let* '(_, err) := ExecShellf ("restic init -r " ++ repo) in
        match err with
        | Some e => ret (Some e)
        | None => ret None
        end
    | None => ret None
    end).

(** The command line after [flag.Parse()]. *)
Record Flags : Type := {
  logLevel : string;
  conductorURL0 : string;
  sourcePath0 : string;
  repoDir0 : string;
  resticPassword0 : string
}.

(** Lines 24-75.  The result of [initRepo()] is not used; the last call,
    [c.Start("remove", removeTask, true)], does not return. *)
Definition main (f : Flags) : M E unit :=
  let* _ := modify (set_sourcePath (sourcePath0 f)) in
  let* _ := modify (set_repoDir (repoDir0 f)) in
  let* _ := modify (set_resticPassword (resticPassword0 f)) in
  let* sp := gets sourcePath in
  if String.eqb sp EmptyString then panic (PanicInt 1) else
  let* rd := gets repoDir in
  if String.eqb rd EmptyString then panic (PanicInt 1) else
  let* rp := gets resticPassword in
  if String.eqb rp EmptyString then panic (PanicInt 1) else
  if String.eqb (conductorURL0 f) EmptyString then panic (PanicInt 1) else
  let* _ := initRepo in
  let* _ := Start "backup" false in
  Start "remove" true.

End Main.

(** ** A scripted environment

    Commands answer from a table (an unknown command fails), the
    directories that exist are listed, and an unrepresentable conversion
    gives the smallest [int], as on amd64. *)

Definition scripted (answers : list (string * (string * option error)))
    (dirs : list string) : Env :=
  let answer cmd :=
    match List.find (fun a => String.eqb (fst a) cmd) answers with
    | Some a => snd a
    | None => (EmptyString, Some "exit status 127")
    end in
  {| World := unit;
     run cmd w := (answer cmd, w);
     run_timeout _ cmd w := (answer cmd, w);
     stat path _ :=
       if existsb (String.eqb path) dirs then None else Some ENOENT;
     unrepresentable _ := Int64.min_int |}.

(** The initial state of the process: the package-level variables hold
    their zero values and the mutex is free. *)
Definition initial (E : Env) (w : World E) : State E :=
  mkState EmptyString EmptyString EmptyString false w [].

(** The state once [main] has stored the flags. *)
Definition configured (E : Env) (src repo pw : string) (w : World E) : State E :=
  mkState src repo pw false w [].

(** ** Statements: commands, states and environments *)

(** The directory that [createNewBackup] checks and hands to restic. *)
Definition sourceDir_of (backupName : string) : string :=
  "/backup-source/" ++ backupName.

(** The command lines, as formatted from the templates of [main.go]. *)
Definition unlock_cmd (repo : string) : string :=
  "restic -r " ++ repo ++ " unlock".

Definition backup_cmd (backupName repo : string) : string :=
  "restic backup " ++ sourceDir_of backupName ++ " -r " ++ repo.

Definition forget_cmd (dataID repo : string) : string :=
  "restic forget " ++ dataID ++ " -r " ++ repo.

(** [requested_timeout E t d]: the request carries no [timeoutSeconds] and
    [d] is one minute, or it carries the number [f] and [d] is [int(f)]
    seconds as an [int64] count of nanoseconds. *)
Definition requested_timeout (E : Env) (t : Task) (d : Duration.t) : Prop :=
  (InputData t !! "timeoutSeconds" = None /\ d = 60 * Duration.Second) \/
  (exists f, InputData t !! "timeoutSeconds" = Some (VFloat64 f) /\
             d = Int64.mul (int_of_float64 (unrepresentable E) f) Duration.Second).

(** The state in which [createNewBackup] starts: the mutex is held and
    the unlock command has been run. *)
Definition after_unlock {E : Env} (s : State E) (w : World E) : State E :=
  set_world w (emit (EvExecShell (unlock_cmd (repoDir s))) (set_repoLock true s)).

Definition completed (t : Task) (output : gmap string Value) : TaskResult :=
  with_Status COMPLETED (with_OutputData output (NewTaskResult t)).

(** The state a task handler leaves behind: the variables of [s], the
    mutex free, the world [w] and the events [evs] added to the trace. *)
Definition finished {E : Env} (s : State E) (w : World E) (evs : list Event)
  : State E :=
  mkState (sourcePath s) (repoDir s) (resticPassword s) false w (trace s ++ evs).

(** A computation that leaves the mutex as it found it and never waits
    for it. *)
Definition keeps_lock {E : Env} {A} (m : M E A) : Prop :=
  forall s, repoLock (m s).2 = repoLock s /\ (m s).1 <> Blocked.

(** A computation on which the variable [sourcePath] has no influence. *)
Definition ignores_sourcePath {E : Env} {A} (m : M E A) : Prop :=
  forall p s, m (set_sourcePath p s) =
              let '(r, s') := m s in (r, set_sourcePath p s').

(** *** Concrete requests and environments *)

Definition task_of (fields : list (string * Value)) : Task :=
  {| TaskId := "task-1"; InputData := list_to_map fields |}.

(** A repository at [/backup-repo] that answers every command of a backup
    of [db1] and of the removal of snapshot [a1b2c3d]. *)
Definition healthy : Env :=
  scripted
    [ ("restic snapshots -r /backup-repo", (EmptyString, None));
      ("restic -r /backup-repo unlock", (EmptyString, None));
      ("restic backup /backup-source/db1 -r /backup-repo",
       ("snapshot a1b2c3d saved", None));
      ("restic forget a1b2c3d -r /backup-repo",
       ("removed snapshot a1b2c3d", None)) ]
    [ "/backup-source/db1" ].

Definition ready (E : Env) (w : World E) : State E :=
  configured E "/backup-source" "/backup-repo" "secret" w.

(** A repository whose backup command exits successfully and prints no
    confirmation line. *)
Definition silent : Env :=
  scripted
    [ ("restic -r /backup-repo unlock", (EmptyString, None));
      ("restic backup /backup-source/db1 -r /backup-repo",
       ("using parent snapshot 0f3a9c1e", None)) ]
    [ "/backup-source/db1" ].

(** A repository whose forget command reports another snapshot than the
    one it was asked to remove. *)
Definition confused : Env :=
  scripted
    [ ("restic -r /backup-repo unlock", (EmptyString, None));
      ("restic forget a1b2c3d -r /backup-repo",
       ("removed snapshot zzzzzzz", None)) ]
    [ "/backup-source/db1" ].

(** A repository that answers no command: the probe and the
    initialisation both fail. *)
Definition unreachable : Env := scripted [] [].

Definition flags : Flags :=
  {| logLevel := "debug";
     conductorURL0 := "http://conductor:8080/api";
     sourcePath0 := "/backup-source";
     repoDir0 := "/backup-repo";
     resticPassword0 := "secret" |}.

(** A host whose backup sources are under [/data]. *)
Definition relocated : Env :=
  scripted
    [ ("restic -r /backup-repo unlock", (EmptyString, None));
      ("restic backup /data/db1 -r /backup-repo",
       ("snapshot a1b2c3d saved", None)) ]
    [ "/data/db1" ].

(** The [float64] values 30 and 1.5, in the form binary64 stores them. *)
Definition float64_30 : spec_float := S754_finite false 8444249301319680 (-48).
Definition float64_1_5 : spec_float := S754_finite false 6755399441055744 (-52).

(** *** Further commands, requests and environments *)

Definition snapshots_cmd (repo : string) : string :=
  "restic snapshots -r " ++ repo.

Definition init_cmd (repo : string) : string :=
  "restic init -r " ++ repo.

(** A location without a repository yet: the probe fails and the
    initialisation succeeds. *)
Definition fresh : Env :=
  scripted
    [ ("restic init -r /backup-repo", ("created restic repository", None)) ]
    [].

(** A repository whose forget command succeeds and prints nothing. *)
Definition mute : Env :=
  scripted
    [ ("restic -r /backup-repo unlock", (EmptyString, None));
      ("restic forget a1b2c3d -r /backup-repo", (EmptyString, None)) ]
    [].

(** A repository whose forget command reports a snapshot whose identifier
    starts with the requested one and goes on. *)
Definition longer : Env :=
  scripted
    [ ("restic -r /backup-repo unlock", (EmptyString, None));
      ("restic forget a1b2c3d -r /backup-repo",
       ("removed snapshot a1b2c3d8", None)) ]
    [].

(** A host on which [os.Stat] fails on every path for another reason than
    a missing file. *)
Definition denied : Env :=
  {| World := unit;
     run cmd w := ((EmptyString, None), w);
     run_timeout _ cmd w := (("snapshot a1b2c3d saved", None), w);
     stat _ _ := Some (EOther "permission denied");
     unrepresentable _ := Int64.min_int |}.

(** A repository whose backup command prints the snapshot it starts from
    before the confirmation. *)
Definition chatty : Env :=
  scripted
    [ ("restic -r /backup-repo unlock", (EmptyString, None));
      ("restic backup /backup-source/db1 -r /backup-repo",
       ("using parent snapshot 0f3a9c1e snapshot a1b2c3d saved", None)) ]
    [ "/backup-source/db1" ].

(** A repository whose backup command prints the confirmation and then
    fails. *)
Definition interrupted : Env :=
  scripted
    [ ("restic -r /backup-repo unlock", (EmptyString, None));
      ("restic backup /backup-source/db1 -r /backup-repo",
       ("snapshot a1b2c3d saved", Some "exit status 3")) ]
    [ "/backup-source/db1" ].

(** A host on which the source root itself is backed up. *)
Definition rooted : Env :=
  scripted
    [ ("restic -r /backup-repo unlock", (EmptyString, None));
      ("restic backup /backup-source/ -r /backup-repo",
       ("snapshot 0123abc saved", None)) ]
    [ "/backup-source/" ].

(** The [float64] values 0.5 and 9223372037. *)
Definition float64_half : spec_float :=
  S754_finite false 4503599627370496 (-53).
Definition float64_9223372037 : spec_float :=
  S754_finite false 4835703278534656 (-19).

(** A change of the state that the mutex, the world, the trace and
    [repoDir] do not see. *)
Record silent_update {E : Env} (upd : State E -> State E) : Prop := {
  upd_repoLock : forall s, repoLock (upd s) = repoLock s;
  upd_world : forall s, world (upd s) = world s;
  upd_repoDir : forall s, repoDir (upd s) = repoDir s;
  upd_set_repoLock : forall b s, upd (set_repoLock b s) = set_repoLock b (upd s);
  upd_set_world : forall w s, upd (set_world w s) = set_world w (upd s);
  upd_emit : forall ev s, upd (emit ev s) = emit ev (upd s)
}.

(** A computation that goes through such a change untouched. *)
Definition unaffected_by {E : Env} {A} (upd : State E -> State E) (m : M E A)
  : Prop :=
  forall s, m (upd s) = let '(r, s') := m s in (r, upd s').

(** ** Properties *)

(** *** What [Regexp.find] finds

    [find] is compared with the reading of the pattern as a set of
    strings: an occurrence is a copy of [pre], a non-empty run of class
    characters and a copy of [post]. *)

Module RegexpFacts.

Import Regexp.

#[local] Arguments String.append !_ _ / : simpl nomatch.

Lemma append_assoc (a b c : string) : (a ++ b) ++ c = a ++ b ++ c.
Proof. induction a as [| x a IH]; simpl; [reflexivity | now rewrite IH]. Qed.

Lemma strip_spec (p s s' : string) : strip p s = Some s' <-> s = p ++ s'.
Proof.
  revert s. induction p as [| a p IH]; intros s; simpl.
  - split; [now intros [= ->] | now intros ->].
  - destruct s as [| b s]; [split; discriminate |].
    destruct (Ascii.eqb a b) eqn:Hab.
    + apply Ascii.eqb_eq in Hab as ->. rewrite IH.
      split; [now intros -> | now intros [= ->]].
    + apply Ascii.eqb_neq in Hab. split; [discriminate |].
      intros [= -> _]. now contradiction Hab.
Qed.

Lemma strip_append (p s : string) : strip p (p ++ s) = Some s.
Proof. now apply strip_spec. Qed.

Lemma span_spec cl (s run rest : string) :
  span cl s = (run, rest) -> s = run ++ rest /\ all_in cl run = true.
Proof.
  revert run rest. induction s as [| c s IH]; intros run rest; simpl.
  - now intros [= <- <-].
  - destruct (cl c) eqn:Hc.
    + destruct (span cl s) as [run' rest'] eqn:Hs. intros [= <- <-].
      destruct (IH run' rest' eq_refl) as [-> Hall]. simpl. now rewrite Hc.
    + now intros [= <- <-].
Qed.

(** A run of class characters at the head of [s] is a prefix of the run
    that [span] takes. *)
Lemma span_prefix cl (g tail run rest : string) :
  all_in cl g = true -> span cl (g ++ tail) = (run, rest) ->
  exists more, run = g ++ more /\ tail = more ++ rest.
Proof.
  revert run rest. induction g as [| c g IH]; intros run rest Hall; simpl.
  - intros Hs. exists run. split; [reflexivity |].
    now apply span_spec in Hs as [-> _].
  - simpl in Hall. apply andb_prop in Hall as [Hc Hall]. rewrite Hc.
    destruct (span cl (g ++ tail)) as [run' rest'] eqn:Hs. intros [= <- <-].
    destruct (IH run' rest' Hall eq_refl) as [more [-> ->]].
    now exists more.
Qed.

Lemma substring_split (k : nat) (s : string) :
  (k <= String.length s)%nat ->
  substring 0 k s ++ substring k (String.length s - k) s = s.
Proof.
  revert k. induction s as [| c s IH]; intros [| k] Hk; simpl in *;
    try reflexivity; try lia.
  - clear IH Hk. f_equal. induction s as [| c' s IH]; simpl; [reflexivity |].
    now rewrite IH.
  - f_equal. apply IH. lia.
Qed.

Lemma substring_prefix (g more : string) :
  substring 0 (String.length g) (g ++ more) = g /\
  substring (String.length g) (String.length (g ++ more) - String.length g)
    (g ++ more) = more.
Proof.
  induction g as [| c g [IH1 IH2]]; simpl.
  - split; [now destruct more |].
    rewrite Nat.sub_0_r. induction more as [| c more IH]; simpl; [reflexivity |].
    now rewrite IH.
  - split; [now rewrite IH1 | exact IH2].
Qed.

Lemma all_in_substring cl (k : nat) (s : string) :
  all_in cl s = true -> all_in cl (substring 0 k s) = true.
Proof.
  revert k. induction s as [| c s IH]; intros [| k] Hall; simpl in *;
    try reflexivity.
  apply andb_prop in Hall as [-> Hall]. now apply IH.
Qed.

Lemma substring_nonempty (k : nat) (s : string) :
  (1 <= k <= String.length s)%nat -> substring 0 k s <> EmptyString.
Proof. destruct s, k; simpl; intros [? ?]; try lia. discriminate. Qed.

(** What [group_from] returns is a non-empty prefix of the run that is
    followed by [post]. *)
Lemma group_from_sound (k : nat) (po run rest g : string) :
  (k <= String.length run)%nat ->
  group_from k po run rest = Some g ->
  g <> EmptyString /\ (exists j, g = substring 0 j run) /\
  exists rest', run ++ rest = g ++ po ++ rest'.
Proof.
  induction k as [| k IH]; intros Hk; cbn [group_from]; [discriminate |].
  destruct (strip po _) as [rest' |] eqn:Hstrip.
  - intros [= <-]. split; [apply substring_nonempty; lia |].
    split; [now eexists |]. exists rest'.
    apply strip_spec in Hstrip. rewrite <- Hstrip, <- append_assoc.
    now rewrite substring_split.
  - intros Hg. apply IH; [lia | exact Hg].
Qed.

(** [group_from] finds a group as soon as some prefix of length at most [k]
    is followed by [post]. *)
Lemma group_from_complete (k : nat) (po g more rest tail : string) :
  g <> EmptyString ->
  (String.length g <= k)%nat ->
  more ++ rest = po ++ tail ->
  group_from k po (g ++ more) rest <> None.
Proof.
  intros Hg Hk Hpost. induction k as [| k IH].
  - destruct g; [now contradiction Hg | simpl in Hk; lia].
  - cbn [group_from].
    destruct (strip po _) eqn:Hstrip; [discriminate |].
    destruct (Nat.eq_dec (String.length g) (S k)) as [Heq | Hne].
    + rewrite <- Heq in Hstrip.
      rewrite (proj2 (substring_prefix g more)), Hpost, strip_append in Hstrip.
      discriminate.
    + apply IH. lia.
Qed.

Lemma match_here_sound (r : t) (s g : string) :
  match_here r s = Some g -> matches_at r s g.
Proof.
  unfold match_here, matches_at.
  destruct (strip (pre r) s) as [s1 |] eqn:Hpre; [| discriminate].
  apply strip_spec in Hpre as ->.
  destruct (span (class r) s1) as [run rest] eqn:Hspan.
  apply span_spec in Hspan as [-> Hall]. intros Hg.
  apply group_from_sound in Hg as [Hne [[j ->] [rest' Hrest]]]; [| lia].
  split; [exact Hne |]. split; [now apply all_in_substring |].
  exists rest'. now rewrite Hrest.
Qed.

Lemma match_here_complete (r : t) (s g : string) :
  matches_at r s g -> match_here r s <> None.
Proof.
  intros [Hne [Hall [tail ->]]]. unfold match_here. rewrite strip_append.
  destruct (span (class r) (g ++ post r ++ tail)) as [run rest] eqn:Hspan.
  destruct (span_prefix _ _ _ _ _ Hall Hspan) as [more [-> Hpost]].
  apply (group_from_complete _ _ g more rest tail); [exact Hne | | now symmetry].
  clear. induction g; simpl; lia.
Qed.

(** [find] returns the group of an occurrence. *)
Lemma find_sound (r : t) (s g : string) :
  find r s = Some g ->
  exists before tail, s = before ++ tail /\ matches_at r tail g.
Proof.
  induction s as [| c s IH]; simpl.
  - destruct (match_here r EmptyString) eqn:Hm; [| discriminate].
    intros [= ->]. exists EmptyString, EmptyString.
    split; [reflexivity | now apply match_here_sound].
  - destruct (match_here r (String c s)) eqn:Hm.
    + intros [= ->]. exists EmptyString, (String c s).
      split; [reflexivity | now apply match_here_sound].
    + intros Hf. destruct (IH Hf) as [before [tail [-> Hat]]].
      now exists (String c before), tail.
Qed.

(** [find] returns nothing exactly when the text holds no occurrence. *)
Lemma find_none_iff (r : t) (s : string) : find r s = None <-> ~ occurs r s.
Proof.
  split.
  - intros Hf [before [tail [g [-> Hat]]]].
    induction before as [| c before IH]; simpl in Hf.
    + destruct tail; simpl in Hf;
        destruct (match_here r _) eqn:Hm; try discriminate;
        now apply (match_here_complete r _ g Hat).
    + destruct (match_here r (String c (before ++ tail))); [discriminate |].
      now apply IH.
  - intros Hno. destruct (find r s) as [g |] eqn:Hf; [| reflexivity].
    contradiction Hno. apply find_sound in Hf as [before [tail [-> Hat]]].
    now exists before, tail, g.
Qed.

Lemma append_empty_r (a : string) : a ++ EmptyString = a.
Proof. induction a as [| x a IH]; simpl; [reflexivity | now rewrite IH]. Qed.

(** The run that [span] takes ends where the class ends. *)
Lemma span_exact cl (g rest : string) :
  all_in cl g = true ->
  match rest with EmptyString => True | String c _ => cl c = false end ->
  span cl (g ++ rest) = (g, rest).
Proof.
  intros Hall Hrest. induction g as [| c g IH]; simpl in *.
  - destruct rest as [| c rest]; [reflexivity |]. simpl. now rewrite Hrest.
  - apply andb_prop in Hall as [-> Hall]. now rewrite IH.
Qed.

(** A whole run followed by [post] is the group: the repetition is
    greedy. *)
Lemma match_here_greedy (r : t) (g rest : string) :
  g <> EmptyString ->
  all_in (class r) g = true ->
  match post r ++ rest with
  | EmptyString => True
  | String c _ => class r c = false
  end ->
  match_here r (pre r ++ g ++ post r ++ rest) = Some g.
Proof.
  intros Hne Hall Hstop. unfold match_here. rewrite strip_append.
  rewrite (span_exact _ g (post r ++ rest)) by assumption.
  destruct (String.length g) as [| k] eqn:Hlen;
    [destruct g; [now contradiction Hne | discriminate] |].
  cbn [group_from]. rewrite <- Hlen.
  pose proof (substring_prefix g EmptyString) as [H1 H2].
  rewrite append_empty_r in H1, H2. rewrite H1, H2. simpl.
  now rewrite strip_append.
Qed.

(** A text that starts with a confirmation line gives its identifier. *)
Lemma find_at_head (r : t) (g rest : string) :
  g <> EmptyString ->
  all_in (class r) g = true ->
  match post r ++ rest with
  | EmptyString => True
  | String c _ => class r c = false
  end ->
  FindStringSubmatch r (pre r ++ g ++ post r ++ rest) = [pre r ++ g ++ post r; g].
Proof.
  intros Hne Hall Hstop. unfold FindStringSubmatch.
  assert (Hfind : find r (pre r ++ g ++ post r ++ rest) = Some g).
  { pose proof (match_here_greedy r g rest Hne Hall Hstop) as Hm.
    destruct (pre r ++ g ++ post r ++ rest); simpl; now rewrite Hm. }
  now rewrite Hfind.
Qed.

(** The occurrence that [find] reports is the first one of the text. *)
Lemma find_first (r : t) (before tail g : string) :
  match_here r tail = Some g ->
  none_starts_in r before tail ->
  find r (before ++ tail) = Some g.
Proof.
  intros Hm. induction before as [| c before IH]; intros Hnone.
  - simpl. destruct tail; simpl; now rewrite Hm.
  - simpl. destruct (match_here r (String c (before ++ tail))) as [g' |] eqn:Hc.
    + apply match_here_sound in Hc.
      contradiction (Hnone EmptyString (String c before) g' eq_refl).
      discriminate.
    + apply IH. intros b1 b2 g' -> Hne.
      now apply (Hnone (String c b1) b2 g').
Qed.

Lemma no_match_before_sound (r : t) (before tail : string) :
  no_match_before r before tail = true -> none_starts_in r before tail.
Proof.
  induction before as [| c before IH]; intros Hcheck b1 b2 g Hsplit Hne Hat.
  - destruct b1; [simpl in Hsplit; now subst b2 | discriminate].
  - cbn [no_match_before] in Hcheck.
    destruct (match_here r (String c before ++ tail)) eqn:Hm; [discriminate |].
    destruct b1 as [| c' b1]; simpl in Hsplit.
    + subst b2. now apply (match_here_complete r _ g Hat).
    + injection Hsplit as _ Hsplit.
      now apply (IH Hcheck b1 b2 g).
Qed.

End RegexpFacts.

(** The runs of the two patterns stop at a space and at the end of the
    text. *)
Example saved_line (id rest : string) :
  id <> EmptyString ->
  Regexp.all_in Regexp.class_0_9a_zA_z id = true ->
  Regexp.FindStringSubmatch rexSaved ("snapshot " ++ id ++ " saved" ++ rest)
  = ["snapshot " ++ id ++ " saved"; id].
Proof.
  intros Hne Hall.
  now apply (RegexpFacts.find_at_head rexSaved id rest).
Qed.

Example removed_line (id : string) :
  id <> EmptyString ->
  Regexp.all_in Regexp.class_0_9a_zA_z id = true ->
  Regexp.FindStringSubmatch rexRemoved ("removed snapshot " ++ id)
  = ["removed snapshot " ++ id; id].
Proof.
  intros Hne Hall.
  pose proof (RegexpFacts.find_at_head rexRemoved id EmptyString Hne Hall I) as H.
  cbn [Regexp.pre Regexp.post rexRemoved] in H.
  now rewrite !RegexpFacts.append_empty_r in H.
Qed.

Section Properties.

Context {E : Env}.

Local Open Scope go_scope.

(** *** Sequencing *)

Lemma bind_returned {A B} (m : M E A) (k : A -> M E B) s a s' :
  m s = (Returned a, s') -> bind m k s = k a s'.
Proof. unfold bind. now intros ->. Qed.

Lemma bind_panicked {A B} (m : M E A) (k : A -> M E B) s p s' :
  m s = (Panicked p, s') -> bind m k s = (Panicked p, s').
Proof. unfold bind. now intros ->. Qed.

(** *** The region between [Lock] and the deferred [Unlock] *)

Lemma keeps_lock_ret {A} (a : A) : keeps_lock (E:=E) (ret a).
Proof. intros s. now split. Qed.

Lemma keeps_lock_panic {A} p : keeps_lock (E:=E) (@panic E A p).
Proof. intros s. now split. Qed.

Lemma keeps_lock_gets {A} (f : State E -> A) : keeps_lock (E:=E) (gets f).
Proof. intros s. now split. Qed.

Lemma keeps_lock_bind {A B} (m : M E A) (k : A -> M E B) :
  keeps_lock m -> (forall a, keeps_lock (k a)) -> keeps_lock (bind m k).
Proof.
  intros Hm Hk s. unfold bind. destruct (Hm s) as [Hl Hb].
  destruct (m s) as [[a | p |] s']; simpl in *.
  - destruct (Hk a s') as [Hl' Hb']. split; [congruence | assumption].
  - now split.
  - now contradiction Hb.
Qed.

Lemma keeps_lock_ExecShellf cmd : keeps_lock (E:=E) (ExecShellf cmd).
Proof. intros s. unfold ExecShellf. now destruct (run E cmd (world s)). Qed.

Lemma keeps_lock_ExecShellfTimeout d cmd : keeps_lock (E:=E) (ExecShellfTimeout d cmd).
Proof.
  intros s. unfold ExecShellfTimeout.
  now destruct (run_timeout E d cmd (world s)).
Qed.

Lemma keeps_lock_os_Stat path : keeps_lock (E:=E) (os_Stat path).
Proof. intros s. now split. Qed.

Lemma keeps_lock_assert_string v : keeps_lock (E:=E) (assert_string v).
Proof. intros s. now destruct v. Qed.

Lemma keeps_lock_assert_float64 v : keeps_lock (E:=E) (assert_float64 v).
Proof. intros s. now destruct v. Qed.

Lemma keeps_lock_index l i : keeps_lock (E:=E) (index l i).
Proof. intros s. unfold index. now destruct (l !! i). Qed.

(** What a function of the shape
    [repoLock.Lock(); defer repoLock.Unlock(); body] does when the mutex
    is free: the body runs with the mutex held, and the mutex is free
    again whatever the body's outcome, a panic included. *)
Lemma locked_region {A} (body : M E A) (s : State E) :
  repoLock s = false ->
  keeps_lock body ->
  (let* _ := Lock in defer Unlock body) s =
  let '(r, s') := body (set_repoLock true s) in (r, set_repoLock false s').
Proof.
  intros Hfree Hkeep. unfold bind, Lock. rewrite Hfree. unfold defer.
  destruct (Hkeep (set_repoLock true s)) as [Hl Hb].
  destruct (body (set_repoLock true s)) as [[a | p |] s']; simpl in *;
    try (now contradiction Hb); unfold Unlock; now rewrite Hl.
Qed.

Lemma set_repoLock_twice (s : State E) :
  repoLock s = false -> set_repoLock false (set_repoLock true s) = s.
Proof. destruct s; simpl; intros ->; reflexivity. Qed.

End Properties.

Create HintDb keeps_lock.
#[global] Hint Resolve keeps_lock_ret keeps_lock_panic keeps_lock_gets
  keeps_lock_ExecShellf keeps_lock_ExecShellfTimeout keeps_lock_os_Stat
  keeps_lock_assert_string keeps_lock_assert_float64 keeps_lock_index
  : keeps_lock.

(** Walk down a body: binds, then the branches of its matches. *)
Ltac keeps_lock_tac :=
  repeat first
    [ progress auto with keeps_lock
    | apply keeps_lock_bind; [| intros ]
    | match goal with
      | |- keeps_lock (match ?x with _ => _ end) => destruct x
      | |- keeps_lock (if ?x then _ else _) => destruct x
      end ].

Lemma keeps_lock_createNewBackup {E : Env} bn d :
  keeps_lock (E:=E) (createNewBackup bn d).
Proof. unfold createNewBackup. keeps_lock_tac. Qed.

Lemma keeps_lock_deleteBackup {E : Env} id :
  keeps_lock (E:=E) (deleteBackup id).
Proof. unfold deleteBackup. keeps_lock_tac. Qed.

Lemma keeps_lock_resolveCreateTimeout {E : Env} t :
  keeps_lock (E:=E) (resolveCreateTimeout t).
Proof. unfold resolveCreateTimeout. keeps_lock_tac. Qed.

#[global] Hint Resolve keeps_lock_createNewBackup keeps_lock_deleteBackup
  keeps_lock_resolveCreateTimeout : keeps_lock.

(** ** Missing and ill-typed fields *)

(** C7. A backup request without the [backupName] field is answered with
    the [MissingField] error and no task result, and the state after the
    call is the state before it: the trace gains no event, so neither the
    unlock command nor the backup command has been run. *)
Theorem backup_missing_backupName {E : Env} (t : Task) (s : State E) :
  InputData t !! "backupName" = None ->
  repoLock s = false ->
  backupTask t s = (Returned (None, Some Errors.MissingField), s) /\
  trace (backupTask t s).2 = trace s.
Proof.
  intros Hbn Hfree.
  assert (Hrun : backupTask t s = (Returned (None, Some Errors.MissingField), s)).
  { unfold backupTask. rewrite locked_region by (assumption || keeps_lock_tac).
    rewrite Hbn. cbn. now rewrite set_repoLock_twice. }
  split; [assumption | now rewrite Hrun].
Qed.

Lemma backup_missing_backupName_witness :
  let t := task_of [("timeoutSeconds", VFloat64 (S754_finite false 30 0))] in
  let s := ready healthy tt in
  backupTask t s = (Returned (None, Some Errors.MissingField), s) /\
  trace (backupTask t s).2 = trace s.
Proof.
  intros t s. apply (backup_missing_backupName t s); reflexivity.
Defined.

(** The type assertion [v.(string)] on anything but a string. *)
Lemma assert_string_panics {E : Env} (v : Value) (s : State E) :
  dynamic_type v <> TString ->
  assert_string v s = (Panicked (TypeAssertionError (dynamic_type v) TString), s).
Proof. destruct v; simpl; intros H; try reflexivity. now contradiction H. Qed.

Lemma backupTask_nonstring_backupName {E : Env} (t : Task) (s : State E) v :
  repoLock s = false ->
  InputData t !! "backupName" = Some v ->
  dynamic_type v <> TString ->
  backupTask t s = (Panicked (TypeAssertionError (dynamic_type v) TString), s).
Proof.
  intros Hfree Hbn Hv. unfold backupTask.
  rewrite locked_region by (assumption || keeps_lock_tac).
  rewrite Hbn. erewrite bind_panicked by (now apply assert_string_panics).
  cbn. now rewrite set_repoLock_twice.
Qed.

Lemma removeTask_nonstring_backupName {E : Env} (t : Task) (s : State E) v :
  repoLock s = false ->
  InputData t !! "backupName" = Some v ->
  dynamic_type v <> TString ->
  removeTask t s = (Panicked (TypeAssertionError (dynamic_type v) TString), s).
Proof.
  intros Hfree Hbn Hv. unfold removeTask.
  rewrite locked_region by (assumption || keeps_lock_tac).
  rewrite Hbn. erewrite bind_panicked by (now apply assert_string_panics).
  cbn. now rewrite set_repoLock_twice.
Qed.

Lemma removeTask_nonstring_dataId {E : Env} (t : Task) (s : State E) bn v :
  repoLock s = false ->
  InputData t !! "backupName" = Some (VString bn) ->
  InputData t !! "dataId" = Some v ->
  dynamic_type v <> TString ->
  removeTask t s = (Panicked (TypeAssertionError (dynamic_type v) TString), s).
Proof.
  intros Hfree Hbn Hdi Hv. unfold removeTask.
  rewrite locked_region by (assumption || keeps_lock_tac).
  rewrite Hbn, Hdi.
  rewrite (bind_returned _ _ _ bn (set_repoLock true s)) by reflexivity.
  erewrite bind_panicked by (now apply assert_string_panics).
  cbn. now rewrite set_repoLock_twice.
Qed.

Lemma string_or_not (v : Value) :
  (exists x, v = VString x) \/ dynamic_type v <> TString.
Proof. destruct v; try (right; discriminate). left. now eexists. Qed.

(** C10, as the code has it.  A [backupName] that is present but does not
    hold a string makes [backupTask] and [removeTask] panic with the failed
    type assertion instead of returning an error; so does a [dataId] that
    does not hold a string in a [removeTask] whose [backupName] is a
    string.  The panic comes before any command is run and the mutex is
    released on the way out, so the state is unchanged.  Hence a handler
    that returns at all had a string [backupName] if present, and then a
    string [dataId] if present.  A [removeTask] without [backupName]
    returns the error of the missing field whatever [dataId] holds: the
    assertion on [dataId] is not reached. *)
Theorem nonstring_required_field_panics {E : Env} (t : Task) (s : State E) :
  repoLock s = false ->
  (forall v, InputData t !! "backupName" = Some v ->
     dynamic_type v <> TString ->
     backupTask t s = (Panicked (TypeAssertionError (dynamic_type v) TString), s) /\
     removeTask t s = (Panicked (TypeAssertionError (dynamic_type v) TString), s)) /\
  (forall bn v, InputData t !! "backupName" = Some (VString bn) ->
     InputData t !! "dataId" = Some v ->
     dynamic_type v <> TString ->
     removeTask t s = (Panicked (TypeAssertionError (dynamic_type v) TString), s)) /\
  (forall r s', backupTask t s = (Returned r, s') ->
     forall v, InputData t !! "backupName" = Some v -> exists x, v = VString x) /\
  (forall r s', removeTask t s = (Returned r, s') ->
     forall v, InputData t !! "backupName" = Some v ->
       (exists x, v = VString x) /\
       forall v', InputData t !! "dataId" = Some v' -> exists x, v' = VString x) /\
  (InputData t !! "backupName" = None ->
   removeTask t s = (Returned (None, Some Errors.MissingField), s)).
Proof.
  intros Hfree. split; [| split; [| split; [| split]]].
  - intros v Hbn Hv. split.
    + now apply backupTask_nonstring_backupName.
    + now apply removeTask_nonstring_backupName.
  - intros bn v Hbn Hdi Hv. now apply (removeTask_nonstring_dataId t s bn v).
  - intros r s' Hret v Hbn. destruct (string_or_not v) as [Hs | Hn]; [assumption |].
    rewrite (backupTask_nonstring_backupName t s v) in Hret by assumption.
    discriminate.
  - intros r s' Hret v Hbn. destruct (string_or_not v) as [[bn ->] | Hn].
    + split; [now eexists |]. intros v' Hdi.
      destruct (string_or_not v') as [Hs | Hn']; [assumption |].
      rewrite (removeTask_nonstring_dataId t s bn v') in Hret by assumption.
      discriminate.
    + rewrite (removeTask_nonstring_backupName t s v) in Hret by assumption.
      discriminate.
  - intros Hbn. unfold removeTask.
    rewrite locked_region by (assumption || keeps_lock_tac).
    rewrite Hbn. cbn. now rewrite set_repoLock_twice.
Qed.

Lemma nonstring_required_field_panics_witness :
  let t := task_of [("backupName", VFloat64 (S754_finite false 7 0));
                    ("dataId", VString "a1b2c3d")] in
  let t' := task_of [("backupName", VString "db1"); ("dataId", VNil)] in
  let s := ready healthy tt in
  backupTask t s = (Panicked (TypeAssertionError TFloat64 TString), s) /\
  removeTask t s = (Panicked (TypeAssertionError TFloat64 TString), s) /\
  removeTask t' s = (Panicked (TypeAssertionError TNil TString), s).
Proof.
  intros t t' s.
  pose proof (nonstring_required_field_panics t s eq_refl) as [Hbn _].
  pose proof (nonstring_required_field_panics t' s eq_refl) as [_ [Hdi _]].
  destruct (Hbn (VFloat64 (S754_finite false 7 0)) eq_refl) as [Hb Hr];
    [discriminate |].
  split; [exact Hb |]. split; [exact Hr |].
  apply (Hdi "db1" VNil); [reflexivity | reflexivity | discriminate].
Defined.

(** C10 as stated fails on a remove request that holds a number as
    [dataId] and no [backupName]: [removeTask] returns the error of the
    missing field and does not panic. *)
Lemma nonstring_dataId_counterexample :
  let t := task_of [("dataId", VFloat64 float64_30)] in
  let s := ready healthy tt in
  InputData t !! "dataId" = Some (VFloat64 float64_30) /\
  removeTask t s = (Returned (None, Some Errors.MissingField), s) /\
  (forall p, (removeTask t s).1 <> Panicked p).
Proof.
  intros t s.
  assert (Hrun : removeTask t s = (Returned (None, Some Errors.MissingField), s))
    by reflexivity.
  split; [reflexivity |]. split; [exact Hrun |].
  intros p. rewrite Hrun. cbn [fst]. intros H. discriminate H.
Qed.

(** ** The mutex *)

(** After a function of the shape
    [repoLock.Lock(); defer repoLock.Unlock(); body] the mutex is free, and
    the call has not waited for it. *)
Lemma locked_region_releases {E : Env} {A} (body : M E A) (s : State E) :
  repoLock s = false ->
  keeps_lock body ->
  repoLock (bind Lock (fun _ => defer Unlock body) s).2 = false /\
  (bind Lock (fun _ => defer Unlock body) s).1 <> Blocked /\
  (Lock (bind Lock (fun _ => defer Unlock body) s).2).1 = Returned tt.
Proof.
  intros Hfree Hkeep. rewrite locked_region by assumption.
  destruct (Hkeep (set_repoLock true s)) as [_ Hb].
  destruct (body (set_repoLock true s)) as [r s']. simpl in *.
  now repeat split.
Qed.

(** C9. Started with the mutex free, [backupTask], [removeTask] and
    [initRepo] end with the mutex free, whether they return a result,
    return an error or panic; they end (none of them waits on the mutex it
    holds), and a [Lock] that follows is granted at once. *)
Theorem guard_released {E : Env} (t : Task) (s : State E) :
  repoLock s = false ->
  (repoLock (backupTask t s).2 = false /\ (backupTask t s).1 <> Blocked /\
   (Lock (backupTask t s).2).1 = Returned tt) /\
  (repoLock (removeTask t s).2 = false /\ (removeTask t s).1 <> Blocked /\
   (Lock (removeTask t s).2).1 = Returned tt) /\
  (repoLock (initRepo s).2 = false /\ (initRepo s).1 <> Blocked /\
   (Lock (initRepo s).2).1 = Returned tt).
Proof.
  intros Hfree. split; [| split].
  - unfold backupTask. apply locked_region_releases; [assumption |].
    keeps_lock_tac.
  - unfold removeTask. apply locked_region_releases; [assumption |].
    keeps_lock_tac.
  - unfold initRepo. apply locked_region_releases; [assumption |].
    keeps_lock_tac.
Qed.

Lemma guard_released_witness :
  let t := task_of [("backupName", VString "db1")] in
  let s := ready healthy tt in
  repoLock (backupTask t s).2 = false /\
  repoLock (removeTask t s).2 = false /\
  repoLock (initRepo s).2 = false.
Proof.
  intros t s.
  destruct (guard_released t s eq_refl) as [[Hb _] [[Hr _] [Hi _]]].
  exact (conj Hb (conj Hr Hi)).
Defined.

(** ** Running commands *)

Lemma ExecShellf_run {E : Env} cmd (s : State E) r w :
  run E cmd (world s) = (r, w) ->
  ExecShellf cmd s = (Returned r, set_world w (emit (EvExecShell cmd) s)).
Proof. unfold ExecShellf. now intros ->. Qed.

Lemma ExecShellfTimeout_run {E : Env} d cmd (s : State E) r w :
  run_timeout E d cmd (world s) = (r, w) ->
  ExecShellfTimeout d cmd s =
  (Returned r, set_world w (emit (EvExecShellTimeout d cmd) s)).
Proof. unfold ExecShellfTimeout. now intros ->. Qed.

(** *** The three ways out of [createNewBackup] once the directory is
    looked up *)

Lemma createNewBackup_missing {E : Env} bn d (s : State E) :
  IsNotExist (stat E (sourceDir_of bn) (world s)) = true ->
  createNewBackup bn d s =
  (Returned (EmptyString, -1, Some (Errors.SourceNotFound (sourceDir_of bn))),
   emit (EvStat (sourceDir_of bn)) s).
Proof.
  intros Hstat. unfold createNewBackup.
  erewrite bind_returned by reflexivity.
  fold (sourceDir_of bn). now rewrite Hstat.
Qed.

Lemma createNewBackup_ran {E : Env} bn d (s : State E) result err w :
  IsNotExist (stat E (sourceDir_of bn) (world s)) = false ->
  run_timeout E d (backup_cmd bn (repoDir s)) (world s) = ((result, err), w) ->
  createNewBackup bn d s =
  let s' := set_world w (emit (EvExecShellTimeout d (backup_cmd bn (repoDir s)))
                           (emit (EvStat (sourceDir_of bn)) s)) in
  match err with
  | Some e => (Returned (EmptyString, -1, Some e), s')
  | None =>
      match Regexp.find rexSaved result with
      | Some id => (Returned (id, 111, None), s')
      | None => (Panicked (IndexOutOfRange 1 0), s')
      end
  end.
Proof.
  intros Hstat Hrun. unfold createNewBackup.
  erewrite bind_returned by reflexivity.
  fold (sourceDir_of bn). rewrite Hstat.
  erewrite bind_returned by reflexivity.
  erewrite bind_returned by (apply ExecShellfTimeout_run; exact Hrun).
  destruct err as [e |]; [reflexivity |].
  unfold Regexp.FindStringSubmatch.
  destruct (Regexp.find rexSaved result) as [id |]; reflexivity.
Qed.

(** *** The timeout of a backup request *)

Lemma resolveCreateTimeout_absent {E : Env} (t : Task) (s : State E) :
  InputData t !! "timeoutSeconds" = None ->
  resolveCreateTimeout t s = (Returned (60 * Duration.Second), s).
Proof. unfold resolveCreateTimeout. now intros ->. Qed.

Lemma resolveCreateTimeout_number {E : Env} (t : Task) (s : State E) f :
  InputData t !! "timeoutSeconds" = Some (VFloat64 f) ->
  resolveCreateTimeout t s =
  (Returned (Int64.mul (int_of_float64 (unrepresentable E) f) Duration.Second), s).
Proof. unfold resolveCreateTimeout. now intros ->. Qed.

Lemma resolveCreateTimeout_other {E : Env} (t : Task) (s : State E) v :
  InputData t !! "timeoutSeconds" = Some v ->
  dynamic_type v <> TFloat64 ->
  resolveCreateTimeout t s =
  (Panicked (TypeAssertionError (dynamic_type v) TFloat64), s).
Proof.
  unfold resolveCreateTimeout. intros -> Hv.
  destruct v; try reflexivity. now contradiction Hv.
Qed.

Lemma resolveCreateTimeout_requested {E : Env} (t : Task) (s : State E) d :
  requested_timeout E t d -> resolveCreateTimeout t s = (Returned d, s).
Proof.
  intros [[Ha ->] | [f [Hf ->]]].
  - now apply resolveCreateTimeout_absent.
  - now apply resolveCreateTimeout_number.
Qed.

(** *** [backupTask] up to the call of [createNewBackup] *)

Lemma backupTask_unlocked {E : Env} (t : Task) (s : State E) bn d out w :
  repoLock s = false ->
  InputData t !! "backupName" = Some (VString bn) ->
  requested_timeout E t d ->
  run E (unlock_cmd (repoDir s)) (world s) = ((out, None), w) ->
  backupTask t s =
  let '(r, s') := createNewBackup bn d (after_unlock s w) in
  (match r with
   | Returned (dataID, dataSizeMB, None) =>
       Returned (Some (completed t (<["dataSizeMB" := VInt dataSizeMB]>
                                      (<["dataId" := VString dataID]> ∅))), None)
   | Returned (_, _, Some e) => Returned (None, Some e)
   | Panicked p => Panicked p
   | Blocked => Blocked
   end, set_repoLock false s').
Proof.
  intros Hfree Hbn Hd Hrun. unfold backupTask.
  rewrite locked_region by (assumption || keeps_lock_tac).
  rewrite Hbn.
  erewrite bind_returned by reflexivity.
  erewrite bind_returned by (apply resolveCreateTimeout_requested; exact Hd).
  erewrite bind_returned by reflexivity.
  erewrite bind_returned by (apply ExecShellf_run; exact Hrun).
  change (set_world w (emit (EvExecShell _) (set_repoLock true s)))
    with (after_unlock s w).
  unfold bind.
  destruct (createNewBackup bn d (after_unlock s w)) as [[[[id sz] [e |]] | p |] s'];
    reflexivity.
Qed.

(** Bring the state updates of a run to the form of [finished]. *)
Ltac normalize_state :=
  unfold finished, after_unlock, set_repoLock, set_world, emit;
  cbn [sourcePath repoDir resticPassword repoLock world trace];
  rewrite <- ?app_assoc; cbn [app].

(** ** The backup operation *)

(** C6, as the code has it.  A backup request with a string [backupName]
    and a [timeoutSeconds] that is absent or a number, on a repository
    where the unlock command succeeds, with a source path that [os.Stat]
    does not report as missing, and with a backup command that returns no
    error and whose output is [before], then the line
    ["snapshot <id> saved"] for a non-empty [id] of characters of the class
    [[0-9a-zA-z]], then [rest], no occurrence of the pattern starting
    within [before]: [backupTask] returns no error and a completed task
    result whose [dataId] is [id] and whose [dataSizeMB] is the constant
    111, which is not negative. *)
Theorem backup_success {E : Env} (t : Task) (s : State E)
    bn d out w1 before id rest w2 :
  repoLock s = false ->
  InputData t !! "backupName" = Some (VString bn) ->
  requested_timeout E t d ->
  run E (unlock_cmd (repoDir s)) (world s) = ((out, None), w1) ->
  IsNotExist (stat E (sourceDir_of bn) w1) = false ->
  id <> EmptyString ->
  Regexp.all_in Regexp.class_0_9a_zA_z id = true ->
  Regexp.none_starts_in rexSaved before ("snapshot " ++ id ++ " saved" ++ rest) ->
  run_timeout E d (backup_cmd bn (repoDir s)) w1 =
    ((before ++ "snapshot " ++ id ++ " saved" ++ rest, None), w2) ->
  exists tr,
    backupTask t s =
    (Returned (Some tr, None),
     finished s w2 [EvExecShell (unlock_cmd (repoDir s));
                    EvStat (sourceDir_of bn);
                    EvExecShellTimeout d (backup_cmd bn (repoDir s))]) /\
    Status tr = COMPLETED /\
    OutputData tr !! "dataId" = Some (VString id) /\
    OutputData tr !! "dataSizeMB" = Some (VInt 111) /\
    0 <= 111.
Proof.
  intros Hfree Hbn Hd Hunlock Hstat Hne Hall Hfirst Hrun.
  assert (Hid : Regexp.find rexSaved
                  (before ++ "snapshot " ++ id ++ " saved" ++ rest) = Some id).
  { apply RegexpFacts.find_first; [| exact Hfirst].
    now apply (RegexpFacts.match_here_greedy rexSaved id rest). }
  eexists. split; [| split; [| split; [| split]]].
  - rewrite (backupTask_unlocked t s bn d out w1) by assumption.
    rewrite (createNewBackup_ran bn d (after_unlock s w1) _ None w2 Hstat Hrun).
    rewrite Hid. cbn [fst snd]. normalize_state. reflexivity.
  - reflexivity.
  - reflexivity.
  - reflexivity.
  - lia.
Qed.

Lemma backup_success_witness :
  let t := task_of [("backupName", VString "db1")] in
  let s := ready chatty tt in
  exists tr,
    backupTask t s =
    (Returned (Some tr, None),
     finished s tt
       [EvExecShell "restic -r /backup-repo unlock";
        EvStat "/backup-source/db1";
        EvExecShellTimeout 60000000000
          "restic backup /backup-source/db1 -r /backup-repo"]) /\
    Status tr = COMPLETED /\
    OutputData tr !! "dataId" = Some (VString "a1b2c3d") /\
    OutputData tr !! "dataSizeMB" = Some (VInt 111) /\
    0 <= 111.
Proof.
  intros t s.
  apply (backup_success (E:=chatty) t s "db1" (60 * Duration.Second)
           EmptyString tt "using parent snapshot 0f3a9c1e " "a1b2c3d"
           EmptyString tt).
  - reflexivity.
  - reflexivity.
  - left. split; reflexivity.
  - reflexivity.
  - reflexivity.
  - discriminate.
  - reflexivity.
  - apply RegexpFacts.no_match_before_sound. reflexivity.
  - reflexivity.
Defined.

(** C6 as stated fails when the backup command prints the confirmation
    and returns an error: the request is valid, the source directory is
    there and the output is ["snapshot a1b2c3d saved"], yet [backupTask]
    returns the error of the command and no task result. *)
Lemma backup_success_counterexample :
  let t := task_of [("backupName", VString "db1")] in
  let s := ready interrupted tt in
  stat interrupted "/backup-source/db1" tt = None /\
  run_timeout interrupted 60000000000
    "restic backup /backup-source/db1 -r /backup-repo" tt
  = (("snapshot a1b2c3d saved", Some "exit status 3"), tt) /\
  backupTask t s =
  (Returned (None, Some "exit status 3"),
   finished s tt
     [EvExecShell "restic -r /backup-repo unlock";
      EvStat "/backup-source/db1";
      EvExecShellTimeout 60000000000
        "restic backup /backup-source/db1 -r /backup-repo"]).
Proof. intros t s. split; [| split]; reflexivity. Qed.

(** A failed unlock command ends [backupTask] with its error. *)
Lemma backupTask_unlock_failed {E : Env} (t : Task) (s : State E) bn d out e w :
  repoLock s = false ->
  InputData t !! "backupName" = Some (VString bn) ->
  requested_timeout E t d ->
  run E (unlock_cmd (repoDir s)) (world s) = ((out, Some e), w) ->
  backupTask t s =
  (Returned (None, Some e), finished s w [EvExecShell (unlock_cmd (repoDir s))]).
Proof.
  intros Hfree Hbn Hd Hrun. unfold backupTask.
  rewrite locked_region by (assumption || keeps_lock_tac).
  rewrite Hbn.
  erewrite bind_returned by reflexivity.
  erewrite bind_returned by (apply resolveCreateTimeout_requested; exact Hd).
  erewrite bind_returned by reflexivity.
  erewrite bind_returned by (apply ExecShellf_run; exact Hrun).
  cbn [ret]. normalize_state. reflexivity.
Qed.

(** A [timeoutSeconds] that is not a number ends [backupTask] with a panic
    before any command is run. *)
Lemma backupTask_nonnumeric_timeout {E : Env} (t : Task) (s : State E) bn v :
  repoLock s = false ->
  InputData t !! "backupName" = Some (VString bn) ->
  InputData t !! "timeoutSeconds" = Some v ->
  dynamic_type v <> TFloat64 ->
  backupTask t s = (Panicked (TypeAssertionError (dynamic_type v) TFloat64), s).
Proof.
  intros Hfree Hbn Hv Hty. unfold backupTask.
  rewrite locked_region by (assumption || keeps_lock_tac).
  rewrite Hbn.
  erewrite bind_returned by reflexivity.
  erewrite bind_panicked by (apply (resolveCreateTimeout_other t _ v); assumption).
  cbn. now rewrite set_repoLock_twice.
Qed.

Lemma number_or_not (v : Value) :
  (exists f, v = VFloat64 f) \/ dynamic_type v <> TFloat64.
Proof. destruct v; try (right; discriminate). left. now eexists. Qed.

(** The timeout of a request is resolved or its field is not a number. *)
Lemma requested_timeout_cases (E : Env) (t : Task) :
  (exists d, requested_timeout E t d) \/
  (exists v, InputData t !! "timeoutSeconds" = Some v /\ dynamic_type v <> TFloat64).
Proof.
  destruct (InputData t !! "timeoutSeconds") as [v |] eqn:Hto.
  - destruct (number_or_not v) as [[f ->] | Hty].
    + left. eexists. right. exists f. split; [exact Hto | reflexivity].
    + right. now exists v.
  - left. eexists. left. split; [exact Hto | reflexivity].
Qed.

(** C8, as the code has it.  A backup request with a string [backupName]
    for which [os.Stat] reports the path [/backup-source/<backupName>] as
    not existing once the unlock command has succeeded.  Whatever else the
    request holds and whatever the unlock command answers, the events of
    the call hold no backup command.  When the call reaches
    [createNewBackup] (the timeout is well typed and the unlock command
    succeeds), [backupTask] returns the [SourceNotFound] error and no task
    result, having run the unlock command and looked up the path, nothing
    else. *)
Theorem backup_source_missing {E : Env} (t : Task) (s : State E) bn :
  repoLock s = false ->
  InputData t !! "backupName" = Some (VString bn) ->
  (forall out w1,
     run E (unlock_cmd (repoDir s)) (world s) = ((out, None), w1) ->
     IsNotExist (stat E (sourceDir_of bn) w1) = true) ->
  (exists evs,
     trace (backupTask t s).2 = (trace s ++ evs)%list /\
     forall d cmd, ~ In (EvExecShellTimeout d cmd) evs) /\
  (forall d out w1,
     requested_timeout E t d ->
     run E (unlock_cmd (repoDir s)) (world s) = ((out, None), w1) ->
     backupTask t s =
     (Returned (None, Some (Errors.SourceNotFound (sourceDir_of bn))),
      finished s w1 [EvExecShell (unlock_cmd (repoDir s));
                     EvStat (sourceDir_of bn)])).
Proof.
  intros Hfree Hbn Hstat.
  assert (Hreach : forall d out w1,
    requested_timeout E t d ->
    run E (unlock_cmd (repoDir s)) (world s) = ((out, None), w1) ->
    backupTask t s =
    (Returned (None, Some (Errors.SourceNotFound (sourceDir_of bn))),
     finished s w1 [EvExecShell (unlock_cmd (repoDir s));
                    EvStat (sourceDir_of bn)])).
  { intros d out w1 Hd Hunlock.
    rewrite (backupTask_unlocked t s bn d out w1) by assumption.
    rewrite (createNewBackup_missing bn d (after_unlock s w1))
      by exact (Hstat out w1 Hunlock).
    cbn [fst snd]. normalize_state. reflexivity. }
  split; [| exact Hreach].
  destruct (requested_timeout_cases E t) as [[d Hd] | [v [Hv Hty]]].
  - destruct (run E (unlock_cmd (repoDir s)) (world s)) as [[out [e |]] w1]
      eqn:Hunlock.
    + rewrite (backupTask_unlock_failed t s bn d out e w1) by assumption.
      eexists. split; [reflexivity |].
      intros d' cmd [H | []]. discriminate.
    + rewrite (Hreach d out w1) by (assumption || reflexivity).
      eexists. split; [reflexivity |].
      intros d' cmd [H | [H | []]]; discriminate.
  - rewrite (backupTask_nonnumeric_timeout t s bn v) by assumption.
    exists []. split; [now rewrite app_nil_r |]. intros d' cmd [].
Qed.

Lemma backup_source_missing_witness :
  let t := task_of [("backupName", VString "db2");
                    ("timeoutSeconds", VFloat64 float64_30)] in
  let s := ready healthy tt in
  backupTask t s =
  (Returned (None, Some "Source backup dir /backup-source/db2 doesn't exist"),
   finished s tt [EvExecShell "restic -r /backup-repo unlock";
                  EvStat "/backup-source/db2"]).
Proof.
  intros t s.
  refine (proj2 (backup_source_missing (E:=healthy) t s "db2"
                   eq_refl eq_refl (fun _ _ _ => eq_refl))
            (30 * Duration.Second) EmptyString tt _ eq_refl).
  right. exists float64_30. split; reflexivity.
Defined.

(** C8 as stated fails when the unlock command fails: the source
    directory of the request does not exist, yet [backupTask] returns the
    error of the unlock command, not [SourceNotFound], and has not looked
    the directory up. *)
Lemma backup_source_missing_counterexample :
  let t := task_of [("backupName", VString "db1")] in
  let s := ready unreachable tt in
  stat unreachable "/backup-source/db1" tt = Some ENOENT /\
  backupTask t s =
  (Returned (None, Some "exit status 127"),
   finished s tt [EvExecShell "restic -r /backup-repo unlock"]) /\
  (backupTask t s).1 <>
  Returned (None, Some (Errors.SourceNotFound "/backup-source/db1")).
Proof.
  intros t s.
  assert (Hrun : backupTask t s =
    (Returned (None, Some "exit status 127"),
     finished s tt [EvExecShell "restic -r /backup-repo unlock"]))
    by reflexivity.
  split; [reflexivity |]. split; [exact Hrun |].
  rewrite Hrun. cbn [fst]. intros H. discriminate H.
Qed.

(** A backup command that succeeds without a confirmation line makes
    [createNewBackup] index an empty slice: [backupTask] panics, with the
    mutex released, instead of returning an error. *)
Lemma backup_unconfirmed_panics {E : Env} (t : Task) (s : State E)
    bn d out w1 result w2 :
  repoLock s = false ->
  InputData t !! "backupName" = Some (VString bn) ->
  requested_timeout E t d ->
  run E (unlock_cmd (repoDir s)) (world s) = ((out, None), w1) ->
  IsNotExist (stat E (sourceDir_of bn) w1) = false ->
  run_timeout E d (backup_cmd bn (repoDir s)) w1 = ((result, None), w2) ->
  Regexp.FindStringSubmatch rexSaved result = [] ->
  backupTask t s =
  (Panicked (IndexOutOfRange 1 0),
   finished s w2 [EvExecShell (unlock_cmd (repoDir s));
                  EvStat (sourceDir_of bn);
                  EvExecShellTimeout d (backup_cmd bn (repoDir s))]).
Proof.
  intros Hfree Hbn Hd Hunlock Hstat Hrun Hfind.
  assert (Hid : Regexp.find rexSaved result = None).
  { unfold Regexp.FindStringSubmatch in Hfind.
    now destruct (Regexp.find rexSaved result). }
  rewrite (backupTask_unlocked t s bn d out w1) by assumption.
  rewrite (createNewBackup_ran bn d (after_unlock s w1) result None w2)
    by assumption.
  rewrite Hid. cbn [fst snd]. normalize_state. reflexivity.
Qed.

(** C1. On the request [{backupName: "db1"}], with a backup command that
    exits successfully and prints ["using parent snapshot 0f3a9c1e"] (no
    ["snapshot <id> saved"]), [backupTask] does not return the
    [ResultNotFound] error: it panics with an index out of range. *)
Theorem backup_without_confirmation :
  let t := task_of [("backupName", VString "db1")] in
  let s := ready silent tt in
  ~ Regexp.occurs rexSaved "using parent snapshot 0f3a9c1e" /\
  Regexp.FindStringSubmatch rexSaved "using parent snapshot 0f3a9c1e" = [] /\
  backupTask t s =
  (Panicked (IndexOutOfRange 1 0),
   finished s tt
     [EvExecShell "restic -r /backup-repo unlock";
      EvStat "/backup-source/db1";
      EvExecShellTimeout 60000000000
        "restic backup /backup-source/db1 -r /backup-repo"]) /\
  (backupTask t s).1 <> Returned (None, Some Errors.ResultNotFound).
Proof.
  intros t s.
  assert (Hrun : backupTask t s =
    (Panicked (IndexOutOfRange 1 0),
     finished s tt
       [EvExecShell "restic -r /backup-repo unlock";
        EvStat "/backup-source/db1";
        EvExecShellTimeout 60000000000
          "restic backup /backup-source/db1 -r /backup-repo"])).
  { apply (backup_unconfirmed_panics (E:=silent) t s "db1"
             (60 * Duration.Second) EmptyString tt
             "using parent snapshot 0f3a9c1e" tt); try reflexivity.
    left. split; reflexivity. }
  split; [now apply RegexpFacts.find_none_iff |].
  split; [reflexivity | split; [exact Hrun |]].
  rewrite Hrun. discriminate.
Qed.

(** ** The remove operation *)

Lemma deleteBackup_ran {E : Env} dataID (s : State E) result err w :
  run E (forget_cmd dataID (repoDir s)) (world s) = ((result, err), w) ->
  deleteBackup dataID s =
  (Returned
     match err with
     | Some e => Some e
     | None =>
         match Regexp.find rexRemoved result with
         | None => Some Errors.ResultNotFound
         | Some got =>
             if String.eqb got dataID then None
             else Some (Errors.IdentifierMismatch got dataID)
         end
     end,
   set_world w (emit (EvExecShell (forget_cmd dataID (repoDir s))) s)).
Proof.
  intros Hrun. unfold deleteBackup.
  erewrite bind_returned by reflexivity.
  erewrite bind_returned by (apply ExecShellf_run; exact Hrun).
  destruct err as [e |]; [reflexivity |].
  unfold Regexp.FindStringSubmatch.
  destruct (Regexp.find rexRemoved result) as [got |]; [| reflexivity].
  cbn [length Nat.eqb negb].
  erewrite bind_returned by reflexivity.
  now destruct (String.eqb got dataID).
Qed.

Lemma removeTask_unlocked {E : Env} (t : Task) (s : State E) bn dataID out w :
  repoLock s = false ->
  InputData t !! "backupName" = Some (VString bn) ->
  InputData t !! "dataId" = Some (VString dataID) ->
  run E (unlock_cmd (repoDir s)) (world s) = ((out, None), w) ->
  removeTask t s =
  let '(r, s') := deleteBackup dataID (after_unlock s w) in
  (match r with
   | Returned None => Returned (Some (completed t ∅), None)
   | Returned (Some e) => Returned (None, Some e)
   | Panicked p => Panicked p
   | Blocked => Blocked
   end, set_repoLock false s').
Proof.
  intros Hfree Hbn Hdi Hrun. unfold removeTask.
  rewrite locked_region by (assumption || keeps_lock_tac).
  rewrite Hbn, Hdi.
  erewrite bind_returned by reflexivity.
  erewrite bind_returned by reflexivity.
  erewrite bind_returned by reflexivity.
  erewrite bind_returned by (apply ExecShellf_run; exact Hrun).
  change (set_world w (emit (EvExecShell _) (set_repoLock true s)))
    with (after_unlock s w).
  unfold bind.
  destruct (deleteBackup dataID (after_unlock s w)) as [[[e |] | p |] s'];
    reflexivity.
Qed.

(** *** The ways out of [removeTask] before the forget command *)

Lemma removeTask_missing_backupName {E : Env} (t : Task) (s : State E) :
  repoLock s = false ->
  InputData t !! "backupName" = None ->
  removeTask t s = (Returned (None, Some Errors.MissingField), s).
Proof.
  intros Hfree Hbn. unfold removeTask.
  rewrite locked_region by (assumption || keeps_lock_tac).
  rewrite Hbn. cbn. now rewrite set_repoLock_twice.
Qed.

(** A missing [dataId] is reported with the message of a missing
    [backupName]. *)
Lemma removeTask_missing_dataId {E : Env} (t : Task) (s : State E) bn :
  repoLock s = false ->
  InputData t !! "backupName" = Some (VString bn) ->
  InputData t !! "dataId" = None ->
  removeTask t s = (Returned (None, Some Errors.MissingField), s).
Proof.
  intros Hfree Hbn Hdi. unfold removeTask.
  rewrite locked_region by (assumption || keeps_lock_tac).
  rewrite Hbn, Hdi. cbn. now rewrite set_repoLock_twice.
Qed.

Lemma removeTask_unlock_failed {E : Env} (t : Task) (s : State E)
    bn dataID out e w :
  repoLock s = false ->
  InputData t !! "backupName" = Some (VString bn) ->
  InputData t !! "dataId" = Some (VString dataID) ->
  run E (unlock_cmd (repoDir s)) (world s) = ((out, Some e), w) ->
  removeTask t s =
  (Returned (None, Some e), finished s w [EvExecShell (unlock_cmd (repoDir s))]).
Proof.
  intros Hfree Hbn Hdi Hrun. unfold removeTask.
  rewrite locked_region by (assumption || keeps_lock_tac).
  rewrite Hbn, Hdi.
  do 3 (erewrite bind_returned by reflexivity).
  erewrite bind_returned by (apply ExecShellf_run; exact Hrun).
  cbn [ret]. normalize_state. reflexivity.
Qed.

(** Whatever the request and the repository, a task result comes out of
    [removeTask] only after a forget command that succeeded and whose
    output gave back the requested identifier. *)
Lemma removeTask_success_inv {E : Env} (t : Task) (s : State E) tr err :
  repoLock s = false ->
  (removeTask t s).1 = Returned (Some tr, err) ->
  exists bn dataID out w1 result w2,
    InputData t !! "backupName" = Some (VString bn) /\
    InputData t !! "dataId" = Some (VString dataID) /\
    run E (unlock_cmd (repoDir s)) (world s) = ((out, None), w1) /\
    run E (forget_cmd dataID (repoDir s)) w1 = ((result, None), w2) /\
    Regexp.find rexRemoved result = Some dataID /\
    tr = completed t ∅ /\ err = None.
Proof.
  intros Hfree Hret.
  destruct (InputData t !! "backupName") as [v |] eqn:Hbn;
    [| now rewrite removeTask_missing_backupName in Hret].
  destruct (string_or_not v) as [[bn ->] | Hty];
    [| now rewrite (removeTask_nonstring_backupName t s v) in Hret].
  destruct (InputData t !! "dataId") as [v' |] eqn:Hdi;
    [| now rewrite (removeTask_missing_dataId t s bn) in Hret].
  destruct (string_or_not v') as [[dataID ->] | Hty];
    [| now rewrite (removeTask_nonstring_dataId t s bn v') in Hret].
  destruct (run E (unlock_cmd (repoDir s)) (world s)) as [[out [e |]] w1]
    eqn:Hunlock;
    [now rewrite (removeTask_unlock_failed t s bn dataID out e w1) in Hret |].
  destruct (run E (forget_cmd dataID (repoDir s)) w1) as [[result ferr] w2]
    eqn:Hforget.
  rewrite (removeTask_unlocked t s bn dataID out w1) in Hret by assumption.
  rewrite (deleteBackup_ran dataID (after_unlock s w1) result ferr w2) in Hret
    by assumption.
  destruct ferr as [e |]; [discriminate |].
  destruct (Regexp.find rexRemoved result) as [got |] eqn:Hfind;
    [| discriminate].
  destruct (String.eqb got dataID) eqn:Heq; [| discriminate].
  apply String.eqb_eq in Heq as ->. cbn in Hret. injection Hret as <- <-.
  now exists bn, dataID, out, w1, result, w2.
Qed.

(** C5. A remove request with string [backupName] and [dataId], on a
    repository where the unlock command and the forget command succeed and
    the pattern ["removed snapshot ([0-9a-zA-z]+)"] captures [got] from the
    output of the forget command.  When [got] differs from the requested
    [dataId], [removeTask] returns the [IdentifierMismatch] error and no
    task result; when they are equal it returns a completed, empty task
    result; so a task result is returned only when they are equal. *)
Theorem remove_identifier_check {E : Env} (t : Task) (s : State E)
    bn dataID out w1 result w2 whole got :
  repoLock s = false ->
  InputData t !! "backupName" = Some (VString bn) ->
  InputData t !! "dataId" = Some (VString dataID) ->
  run E (unlock_cmd (repoDir s)) (world s) = ((out, None), w1) ->
  run E (forget_cmd dataID (repoDir s)) w1 = ((result, None), w2) ->
  Regexp.FindStringSubmatch rexRemoved result = [whole; got] ->
  let s' := finished s w2 [EvExecShell (unlock_cmd (repoDir s));
                           EvExecShell (forget_cmd dataID (repoDir s))] in
  (got <> dataID ->
   removeTask t s =
   (Returned (None, Some (Errors.IdentifierMismatch got dataID)), s')) /\
  (got = dataID ->
   removeTask t s = (Returned (Some (completed t ∅), None), s')) /\
  (forall tr err, (removeTask t s).1 = Returned (Some tr, err) -> got = dataID).
Proof.
  intros Hfree Hbn Hdi Hunlock Hrun Hfind s'.
  assert (Hgot : Regexp.find rexRemoved result = Some got).
  { unfold Regexp.FindStringSubmatch in Hfind.
    destruct (Regexp.find rexRemoved result); [| discriminate].
    now inversion Hfind. }
  assert (Hcall : removeTask t s =
    (if String.eqb got dataID then Returned (Some (completed t ∅), None)
     else Returned (None, Some (Errors.IdentifierMismatch got dataID)), s')).
  { rewrite (removeTask_unlocked t s bn dataID out w1) by assumption.
    rewrite (deleteBackup_ran dataID (after_unlock s w1) result None w2)
      by assumption.
    rewrite Hgot. unfold s'.
    destruct (String.eqb got dataID); normalize_state; reflexivity. }
  rewrite Hcall. split; [| split].
  - intros Hne. apply String.eqb_neq in Hne. now rewrite Hne.
  - intros Heq. apply String.eqb_eq in Heq. now rewrite Heq.
  - intros tr err. cbn [fst].
    destruct (String.eqb got dataID) eqn:Heq; [| discriminate].
    intros _. now apply String.eqb_eq.
Qed.

Lemma remove_identifier_check_witness :
  let t := task_of [("backupName", VString "db1");
                    ("dataId", VString "a1b2c3d")] in
  removeTask t (ready confused tt) =
  (Returned (None, Some "Returned id from forget is different from requested. zzzzzzz != a1b2c3d"),
   finished (ready confused tt) tt
     [EvExecShell "restic -r /backup-repo unlock";
      EvExecShell "restic forget a1b2c3d -r /backup-repo"]) /\
  removeTask t (ready healthy tt) =
  (Returned (Some (completed t ∅), None),
   finished (ready healthy tt) tt
     [EvExecShell "restic -r /backup-repo unlock";
      EvExecShell "restic forget a1b2c3d -r /backup-repo"]).
Proof.
  intros t. split.
  - refine (proj1 (remove_identifier_check (E:=confused) t (ready confused tt)
              "db1" "a1b2c3d" EmptyString tt "removed snapshot zzzzzzz" tt
              "removed snapshot zzzzzzz" "zzzzzzz"
              eq_refl eq_refl eq_refl eq_refl eq_refl eq_refl) _).
    discriminate.
  - refine (proj1 (proj2 (remove_identifier_check (E:=healthy) t (ready healthy tt)
              "db1" "a1b2c3d" EmptyString tt "removed snapshot a1b2c3d" tt
              "removed snapshot a1b2c3d" "a1b2c3d"
              eq_refl eq_refl eq_refl eq_refl eq_refl eq_refl)) _).
    reflexivity.
Defined.

(** ** The timeout of the backup command *)

Lemma wrap_in_range (z : Z) : Int64.in_range z = true -> Int64.wrap z = z.
Proof.
  unfold Int64.in_range, Int64.wrap, Int64.min_int, Int64.max_int.
  intros H. apply andb_prop in H as [Hlo Hhi].
  apply Z.leb_le in Hlo, Hhi. rewrite Z.mod_small; lia.
Qed.

(** [int(f)] is the truncation of [f] when that fits an [int]. *)
Lemma int_of_float64_trunc unrep f n :
  float64_trunc f = Some n -> Int64.in_range n = true ->
  int_of_float64 unrep f = n.
Proof. unfold int_of_float64. now intros -> ->. Qed.

(** With the unlock done and the directory present, the backup command is
    run under the timeout resolved from the request. *)
Lemma backupTask_passes_timeout {E : Env} (t : Task) (s : State E) bn d out w1 :
  repoLock s = false ->
  InputData t !! "backupName" = Some (VString bn) ->
  requested_timeout E t d ->
  run E (unlock_cmd (repoDir s)) (world s) = ((out, None), w1) ->
  IsNotExist (stat E (sourceDir_of bn) w1) = false ->
  trace (backupTask t s).2 =
  (trace s ++ [EvExecShell (unlock_cmd (repoDir s));
               EvStat (sourceDir_of bn);
               EvExecShellTimeout d (backup_cmd bn (repoDir s))])%list.
Proof.
  intros Hfree Hbn Hd Hunlock Hstat.
  rewrite (backupTask_unlocked t s bn d out w1) by assumption.
  destruct (run_timeout E d (backup_cmd bn (repoDir s)) w1) as [[result err] w2] eqn:Hrun.
  rewrite (createNewBackup_ran bn d (after_unlock s w1) result err w2)
    by assumption.
  cbv zeta.
  destruct err as [e |]; [| destruct (Regexp.find rexSaved result)];
    cbn [fst snd]; normalize_state; reflexivity.
Qed.

(** C3, as the code has it.  Without [timeoutSeconds] the timeout is 60
    seconds.  With a number [f] whose truncation [n] fits an [int] and
    whose count of nanoseconds fits an [int64], it is [n] seconds.  In both
    cases the backup command runs under that timeout.  With a value that is
    not a number the type assertion fails: no timeout is resolved and
    [backupTask] panics, the state unchanged. *)
Theorem timeout_resolution {E : Env} (t : Task) (s : State E) :
  (InputData t !! "timeoutSeconds" = None ->
   resolveCreateTimeout t s = (Returned (60 * Duration.Second), s) /\
   requested_timeout E t (60 * Duration.Second)) /\
  (forall f n,
     InputData t !! "timeoutSeconds" = Some (VFloat64 f) ->
     float64_trunc f = Some n ->
     Int64.in_range n = true ->
     Int64.in_range (n * Duration.Second) = true ->
     resolveCreateTimeout t s = (Returned (n * Duration.Second), s) /\
     requested_timeout E t (n * Duration.Second)) /\
  (forall d bn out w1,
     requested_timeout E t d ->
     repoLock s = false ->
     InputData t !! "backupName" = Some (VString bn) ->
     run E (unlock_cmd (repoDir s)) (world s) = ((out, None), w1) ->
     IsNotExist (stat E (sourceDir_of bn) w1) = false ->
     trace (backupTask t s).2 =
     (trace s ++ [EvExecShell (unlock_cmd (repoDir s));
                  EvStat (sourceDir_of bn);
                  EvExecShellTimeout d (backup_cmd bn (repoDir s))])%list) /\
  (forall v,
     InputData t !! "timeoutSeconds" = Some v ->
     dynamic_type v <> TFloat64 ->
     resolveCreateTimeout t s =
     (Panicked (TypeAssertionError (dynamic_type v) TFloat64), s) /\
     forall bn,
       repoLock s = false ->
       InputData t !! "backupName" = Some (VString bn) ->
       backupTask t s =
       (Panicked (TypeAssertionError (dynamic_type v) TFloat64), s)).
Proof.
  split; [| split; [| split]].
  - intros Habs. split; [now apply resolveCreateTimeout_absent |].
    left. now split.
  - intros f n Hf Htr Hn Hns.
    assert (Hd : Int64.mul (int_of_float64 (unrepresentable E) f) Duration.Second
                 = n * Duration.Second).
    { rewrite (int_of_float64_trunc _ f n) by assumption.
      unfold Int64.mul. now apply wrap_in_range. }
    split.
    + rewrite (resolveCreateTimeout_number t s f) by assumption. now rewrite Hd.
    + right. exists f. now split.
  - intros d bn out w1 Hd Hfree Hbn Hunlock Hstat.
    now apply (backupTask_passes_timeout t s bn d out w1).
  - intros v Hv Hty. split; [now apply resolveCreateTimeout_other |].
    intros bn Hfree Hbn. now apply (backupTask_nonnumeric_timeout t s bn v).
Qed.

Example float64_30_valid :
  valid_binary 53 1024 float64_30 = true /\ float64_trunc float64_30 = Some 30.
Proof. split; reflexivity. Qed.

Example float64_1_5_truncates :
  valid_binary 53 1024 float64_1_5 = true /\ float64_trunc float64_1_5 = Some 1.
Proof. split; reflexivity. Qed.

Lemma timeout_resolution_witness :
  let t := task_of [("backupName", VString "db1");
                    ("timeoutSeconds", VFloat64 float64_30)] in
  let t' := task_of [("backupName", VString "db1")] in
  let s := ready healthy tt in
  resolveCreateTimeout t s = (Returned 30000000000, s) /\
  resolveCreateTimeout t' s = (Returned 60000000000, s) /\
  trace (backupTask t s).2 =
  [EvExecShell "restic -r /backup-repo unlock";
   EvStat "/backup-source/db1";
   EvExecShellTimeout 30000000000
     "restic backup /backup-source/db1 -r /backup-repo"].
Proof.
  intros t t' s.
  destruct (timeout_resolution t s) as [_ [Hnum [Hrun _]]].
  destruct (timeout_resolution t' s) as [Habs _].
  destruct (Hnum float64_30 30 eq_refl eq_refl eq_refl eq_refl) as [Hres Hreq].
  split; [exact Hres |]. split; [exact (proj1 (Habs eq_refl)) |].
  exact (Hrun 30000000000 "db1" EmptyString tt Hreq eq_refl eq_refl eq_refl eq_refl).
Defined.

(** C3 as stated fails on a [timeoutSeconds] that is not a number: with
    the string ["30"] no timeout is resolved, the default of 60 seconds is
    not applied, and [backupTask] panics before any command is run. *)
Lemma timeout_nonnumeric_counterexample :
  let t := task_of [("backupName", VString "db1");
                    ("timeoutSeconds", VString "30")] in
  let s := ready healthy tt in
  resolveCreateTimeout t s = (Panicked (TypeAssertionError TString TFloat64), s) /\
  (resolveCreateTimeout t s).1 <> Returned (60 * Duration.Second) /\
  backupTask t s = (Panicked (TypeAssertionError TString TFloat64), s) /\
  trace (backupTask t s).2 = [].
Proof.
  intros t s.
  assert (Hres : resolveCreateTimeout t s =
                 (Panicked (TypeAssertionError TString TFloat64), s))
    by reflexivity.
  assert (Hrun : backupTask t s =
                 (Panicked (TypeAssertionError TString TFloat64), s))
    by reflexivity.
  split; [exact Hres |]. split; [rewrite Hres; discriminate |].
  split; [exact Hrun |]. now rewrite Hrun.
Qed.

(** ** Process start *)

(** [initRepo] returns, with or without an error, whatever the commands
    answer. *)
Lemma initRepo_returns {E : Env} (s : State E) :
  repoLock s = false ->
  exists err w evs, initRepo s = (Returned err, finished s w evs).
Proof.
  intros Hfree. unfold initRepo.
  rewrite locked_region by (assumption || keeps_lock_tac).
  erewrite bind_returned by reflexivity.
  destruct (run E ("restic snapshots -r " ++ repoDir s) (world s))
    as [[result err] w1] eqn:Hprobe.
  erewrite bind_returned by (apply ExecShellf_run; exact Hprobe).
  destruct err as [e |].
  - destruct (run E ("restic init -r " ++ repoDir s) w1)
      as [[out err'] w2] eqn:Hinit.
    erewrite bind_returned by (apply ExecShellf_run; exact Hinit).
    destruct err' as [e' |]; eexists _, w2, _; cbn [ret];
      normalize_state; reflexivity.
  - eexists _, w1, _. cbn [ret]. normalize_state. reflexivity.
Qed.

(** With the four required flags given, [main] goes on to start the two
    task pollers whatever [initRepo] returned, and stays in the second. *)
Lemma main_starts_workers {E : Env} (f : Flags) (s : State E) :
  repoLock s = false ->
  sourcePath0 f <> EmptyString ->
  repoDir0 f <> EmptyString ->
  resticPassword0 f <> EmptyString ->
  conductorURL0 f <> EmptyString ->
  exists w evs,
    main f s =
    (Blocked,
     mkState (sourcePath0 f) (repoDir0 f) (resticPassword0 f) false w
       (trace s ++ evs ++ [EvStart "backup" false; EvStart "remove" true])).
Proof.
  intros Hfree Hsp Hrd Hrp Hurl. unfold main.
  apply String.eqb_neq in Hsp, Hrd, Hrp, Hurl.
  do 4 (erewrite bind_returned by reflexivity).
  cbn [sourcePath set_sourcePath set_repoDir set_resticPassword].
  rewrite Hsp.
  erewrite bind_returned by reflexivity.
  cbn [repoDir set_sourcePath set_repoDir set_resticPassword].
  rewrite Hrd.
  erewrite bind_returned by reflexivity.
  cbn [resticPassword set_sourcePath set_repoDir set_resticPassword].
  rewrite Hrp, Hurl.
  match goal with
  | |- context [bind initRepo _ ?s0] =>
      destruct (initRepo_returns s0) as [err [w [evs Hinit]]];
        [exact Hfree |]
  end.
  erewrite bind_returned by exact Hinit.
  erewrite bind_returned by reflexivity.
  exists w, evs. unfold Start. normalize_state. reflexivity.
Qed.

(** C2. With all flags given and a repository on which both
    [restic snapshots] and [restic init] fail, [initRepo] returns the error
    of the initialisation, and [main], which does not look at it, starts
    the pollers of the [backup] and [remove] tasks and stays in the
    second. *)
Theorem main_after_failed_init :
  initRepo (ready unreachable tt) =
  (Returned (Some "exit status 127"),
   finished (ready unreachable tt) tt
     [EvExecShell "restic snapshots -r /backup-repo";
      EvExecShell "restic init -r /backup-repo"]) /\
  main flags (initial unreachable tt) =
  (Blocked,
   finished (ready unreachable tt) tt
     [EvExecShell "restic snapshots -r /backup-repo";
      EvExecShell "restic init -r /backup-repo";
      EvStart "backup" false;
      EvStart "remove" true]).
Proof. split; reflexivity. Qed.

(** ** The source directory *)

Section SourcePath.

Context {E : Env}.

Lemma ignores_sourcePath_ret {A} (a : A) : ignores_sourcePath (E:=E) (ret a).
Proof. intros p s. reflexivity. Qed.

Lemma ignores_sourcePath_panic {A} v : ignores_sourcePath (E:=E) (@panic E A v).
Proof. intros p s. reflexivity. Qed.

Lemma ignores_sourcePath_repoDir : ignores_sourcePath (E:=E) (gets repoDir).
Proof. intros p s. reflexivity. Qed.

Lemma ignores_sourcePath_bind {A B} (m : M E A) (k : A -> M E B) :
  ignores_sourcePath m -> (forall a, ignores_sourcePath (k a)) ->
  ignores_sourcePath (bind m k).
Proof.
  intros Hm Hk p s. unfold bind. rewrite Hm.
  destruct (m s) as [[a | v |] s']; try reflexivity. apply Hk.
Qed.

Lemma ignores_sourcePath_defer {A} (d : M E unit) (body : M E A) :
  ignores_sourcePath d -> ignores_sourcePath body ->
  ignores_sourcePath (defer d body).
Proof.
  intros Hd Hb p s. unfold defer. rewrite Hb.
  destruct (body s) as [[a | v |] s']; try reflexivity;
    rewrite Hd; now destruct (d s') as [[[] | v' |] s''].
Qed.

Lemma ignores_sourcePath_Lock : ignores_sourcePath (E:=E) Lock.
Proof. intros p s. unfold Lock. cbn. now destruct (repoLock s). Qed.

Lemma ignores_sourcePath_Unlock : ignores_sourcePath (E:=E) Unlock.
Proof. intros p s. unfold Unlock. cbn. now destruct (repoLock s). Qed.

Lemma ignores_sourcePath_ExecShellf cmd : ignores_sourcePath (E:=E) (ExecShellf cmd).
Proof.
  intros p s. unfold ExecShellf. cbn. now destruct (run E cmd (world s)).
Qed.

Lemma ignores_sourcePath_ExecShellfTimeout d cmd :
  ignores_sourcePath (E:=E) (ExecShellfTimeout d cmd).
Proof.
  intros p s. unfold ExecShellfTimeout. cbn.
  now destruct (run_timeout E d cmd (world s)).
Qed.

Lemma ignores_sourcePath_os_Stat path : ignores_sourcePath (E:=E) (os_Stat path).
Proof. intros p s. reflexivity. Qed.

Lemma ignores_sourcePath_assert_string v : ignores_sourcePath (E:=E) (assert_string v).
Proof. intros p s. now destruct v. Qed.

Lemma ignores_sourcePath_assert_float64 v : ignores_sourcePath (E:=E) (assert_float64 v).
Proof. intros p s. now destruct v. Qed.

Lemma ignores_sourcePath_index l i : ignores_sourcePath (E:=E) (index l i).
Proof. intros p s. unfold index. now destruct (l !! i). Qed.

End SourcePath.

Create HintDb ignores_sourcePath.
#[global] Hint Resolve ignores_sourcePath_ret ignores_sourcePath_panic
  ignores_sourcePath_repoDir ignores_sourcePath_Lock ignores_sourcePath_Unlock
  ignores_sourcePath_ExecShellf ignores_sourcePath_ExecShellfTimeout
  ignores_sourcePath_os_Stat ignores_sourcePath_assert_string
  ignores_sourcePath_assert_float64 ignores_sourcePath_index
  : ignores_sourcePath.

Ltac ignores_sourcePath_tac :=
  repeat first
    [ progress auto with ignores_sourcePath
    | apply ignores_sourcePath_bind; [| intros ]
    | apply ignores_sourcePath_defer
    | match goal with
      | |- ignores_sourcePath (match ?x with _ => _ end) => destruct x
      | |- ignores_sourcePath (if ?x then _ else _) => destruct x
      end ].

(** The flag [--source-path] has no influence on a backup: the outcome of
    [backupTask] and everything it does are the same under any value of
    [sourcePath]. *)
Lemma backupTask_ignores_sourcePath {E : Env} (t : Task) :
  ignores_sourcePath (E:=E) (backupTask t).
Proof.
  unfold backupTask, resolveCreateTimeout, createNewBackup.
  ignores_sourcePath_tac.
Qed.

(** C4. Started with [--source-path=/data] on a host where [/data/db1]
    exists, the request [{backupName: "db1"}] looks up
    [/backup-source/db1], not [/data/db1], and fails for want of it; the
    directory is built from the constant ["/backup-source/"] whatever the
    flag says. *)
Theorem backup_source_root_fixed :
  let t := task_of [("backupName", VString "db1")] in
  let s := configured relocated "/data" "/backup-repo" "secret" tt in
  stat relocated "/data/db1" tt = None /\
  backupTask t s =
  (Returned (None, Some "Source backup dir /backup-source/db1 doesn't exist"),
   finished s tt [EvExecShell "restic -r /backup-repo unlock";
                  EvStat "/backup-source/db1"]) /\
  forall p, (backupTask t (set_sourcePath p s)).1 = (backupTask t s).1 /\
            trace (backupTask t (set_sourcePath p s)).2 = trace (backupTask t s).2.
Proof.
  intros t s. split; [reflexivity |]. split; [reflexivity |].
  intros p. rewrite (backupTask_ignores_sourcePath (E:=relocated) t p s).
  now destruct (backupTask t s).
Qed.

(** ** Further properties of [initRepo] and [main] *)

(** Every way through [initRepo]: the probe alone when it succeeds, the
    probe and the initialisation otherwise. *)
Lemma initRepo_run {E : Env} (s : State E) :
  repoLock s = false ->
  initRepo s =
  match run E (snapshots_cmd (repoDir s)) (world s) with
  | ((_, None), w1) =>
      (Returned None, finished s w1 [EvExecShell (snapshots_cmd (repoDir s))])
  | ((_, Some _), w1) =>
      let '((_, err), w2) := run E (init_cmd (repoDir s)) w1 in
      (Returned err,
       finished s w2 [EvExecShell (snapshots_cmd (repoDir s));
                      EvExecShell (init_cmd (repoDir s))])
  end.
Proof.
  intros Hfree. unfold initRepo.
  rewrite locked_region by (assumption || keeps_lock_tac).
  erewrite bind_returned by reflexivity.
  change ("restic snapshots -r " ++ repoDir (set_repoLock true s))
    with (snapshots_cmd (repoDir s)).
  change ("restic init -r " ++ repoDir (set_repoLock true s))
    with (init_cmd (repoDir s)).
  destruct (run E (snapshots_cmd (repoDir s)) (world s))
    as [[result [e |]] w1] eqn:Hprobe.
  - erewrite bind_returned by (apply ExecShellf_run; exact Hprobe).
    destruct (run E (init_cmd (repoDir s)) w1) as [[out err] w2] eqn:Hinit.
    erewrite bind_returned by (apply ExecShellf_run; exact Hinit).
    destruct err; cbn [ret]; normalize_state; reflexivity.
  - erewrite bind_returned by (apply ExecShellf_run; exact Hprobe).
    cbn [ret]. normalize_state. reflexivity.
Qed.

(** X3. A repository that answers the probe is left alone: [initRepo]
    returns no error after the [restic snapshots] command and never runs
    [restic init] on it. *)
Theorem initRepo_accessible {E : Env} (s : State E) out w1 :
  repoLock s = false ->
  run E (snapshots_cmd (repoDir s)) (world s) = ((out, None), w1) ->
  initRepo s =
  (Returned None, finished s w1 [EvExecShell (snapshots_cmd (repoDir s))]).
Proof. intros Hfree Hprobe. rewrite initRepo_run by assumption. now rewrite Hprobe. Qed.

Lemma initRepo_accessible_witness :
  initRepo (ready healthy tt) =
  (Returned None,
   finished (ready healthy tt) tt [EvExecShell "restic snapshots -r /backup-repo"]).
Proof.
  apply (initRepo_accessible (E:=healthy) (ready healthy tt) EmptyString tt);
    reflexivity.
Defined.

(** X4. When the probe fails, [initRepo] runs [restic init] and its result
    is the result of that command alone: no error when the initialisation
    succeeds, the error of the initialisation when it fails; the error of
    the probe is not returned. *)
Theorem initRepo_inaccessible {E : Env} (s : State E) out e w1 out' err w2 :
  repoLock s = false ->
  run E (snapshots_cmd (repoDir s)) (world s) = ((out, Some e), w1) ->
  run E (init_cmd (repoDir s)) w1 = ((out', err), w2) ->
  initRepo s =
  (Returned err,
   finished s w2 [EvExecShell (snapshots_cmd (repoDir s));
                  EvExecShell (init_cmd (repoDir s))]).
Proof.
  intros Hfree Hprobe Hinit. rewrite initRepo_run by assumption.
  now rewrite Hprobe, Hinit.
Qed.

Lemma initRepo_inaccessible_witness :
  initRepo (ready fresh tt) =
  (Returned None,
   finished (ready fresh tt) tt
     [EvExecShell "restic snapshots -r /backup-repo";
      EvExecShell "restic init -r /backup-repo"]).
Proof.
  apply (initRepo_inaccessible (E:=fresh) (ready fresh tt)
           EmptyString "exit status 127" tt "created restic repository" None tt);
    reflexivity.
Defined.

(** X1. When one of the four required flags is empty, [main] panics with
    the value 1 after storing the flags: no command has been run and no
    poller started. *)
Theorem main_missing_flag {E : Env} (f : Flags) (s : State E) :
  sourcePath0 f = EmptyString \/ repoDir0 f = EmptyString \/
  resticPassword0 f = EmptyString \/ conductorURL0 f = EmptyString ->
  main f s =
  (Panicked (PanicInt 1),
   mkState (sourcePath0 f) (repoDir0 f) (resticPassword0 f)
           (repoLock s) (world s) (trace s)).
Proof.
  intros Hempty. unfold main.
  do 4 (erewrite bind_returned by reflexivity).
  cbn [sourcePath set_sourcePath set_repoDir set_resticPassword].
  destruct (String.eqb (sourcePath0 f) EmptyString) eqn:Hsp; [reflexivity |].
  erewrite bind_returned by reflexivity.
  cbn [repoDir set_sourcePath set_repoDir set_resticPassword].
  destruct (String.eqb (repoDir0 f) EmptyString) eqn:Hrd; [reflexivity |].
  erewrite bind_returned by reflexivity.
  cbn [resticPassword set_sourcePath set_repoDir set_resticPassword].
  destruct (String.eqb (resticPassword0 f) EmptyString) eqn:Hrp; [reflexivity |].
  destruct (String.eqb (conductorURL0 f) EmptyString) eqn:Hurl; [reflexivity |].
  apply String.eqb_neq in Hsp, Hrd, Hrp, Hurl.
  destruct Hempty as [H | [H | [H | H]]]; now contradiction H.
Qed.

Lemma main_missing_flag_witness :
  let f := {| logLevel := "debug";
              conductorURL0 := "http://conductor:8080/api";
              sourcePath0 := "/backup-source";
              repoDir0 := "/backup-repo";
              resticPassword0 := EmptyString |} in
  main f (initial healthy tt) =
  (Panicked (PanicInt 1),
   @mkState healthy "/backup-source" "/backup-repo" EmptyString false tt []).
Proof.
  intros f. apply (main_missing_flag (E:=healthy) f (initial healthy tt)).
  right. right. left. reflexivity.
Defined.

(** X2. With the four required flags given, [main] stores the flags in the
    package variables, runs the commands of [initRepo] (the probe, and the
    initialisation when the probe failed), then starts the [backup] poller
    without waiting and then the [remove] poller with waiting, where it
    stays: [main] does not return. *)
Theorem main_start_order {E : Env} (f : Flags) (s : State E) :
  repoLock s = false ->
  sourcePath0 f <> EmptyString ->
  repoDir0 f <> EmptyString ->
  resticPassword0 f <> EmptyString ->
  conductorURL0 f <> EmptyString ->
  exists w evs,
    main f s =
    (Blocked,
     mkState (sourcePath0 f) (repoDir0 f) (resticPassword0 f) false w
       (trace s ++ evs ++ [EvStart "backup" false; EvStart "remove" true])) /\
    (evs = [EvExecShell (snapshots_cmd (repoDir0 f))] \/
     evs = [EvExecShell (snapshots_cmd (repoDir0 f));
            EvExecShell (init_cmd (repoDir0 f))]).
Proof.
  intros Hfree Hsp Hrd Hrp Hurl. unfold main.
  apply String.eqb_neq in Hsp, Hrd, Hrp, Hurl.
  do 4 (erewrite bind_returned by reflexivity).
  cbn [sourcePath set_sourcePath set_repoDir set_resticPassword].
  rewrite Hsp.
  erewrite bind_returned by reflexivity.
  cbn [repoDir set_sourcePath set_repoDir set_resticPassword].
  rewrite Hrd.
  erewrite bind_returned by reflexivity.
  cbn [resticPassword set_sourcePath set_repoDir set_resticPassword].
  rewrite Hrp, Hurl.
  match goal with
  | |- context [bind initRepo _ ?s0] =>
      pose proof (initRepo_run s0 Hfree) as Hinit;
      cbn [repoDir world set_resticPassword set_repoDir set_sourcePath] in Hinit
  end.
  destruct (run E (snapshots_cmd (repoDir0 f)) (world s))
    as [[out [e |]] w1].
  - destruct (run E (init_cmd (repoDir0 f)) w1) as [[out' err] w2].
    erewrite bind_returned by exact Hinit.
    erewrite bind_returned by reflexivity.
    eexists w2, _. split; [| right; reflexivity].
    unfold Start. normalize_state. reflexivity.
  - erewrite bind_returned by exact Hinit.
    erewrite bind_returned by reflexivity.
    eexists w1, _. split; [| left; reflexivity].
    unfold Start. normalize_state. reflexivity.
Qed.

Lemma main_start_order_witness :
  exists w evs,
    main flags (initial fresh tt) =
    (Blocked,
     @mkState fresh "/backup-source" "/backup-repo" "secret" false w
       ([] ++ evs ++ [EvStart "backup" false; EvStart "remove" true])) /\
    (evs = [EvExecShell "restic snapshots -r /backup-repo"] \/
     evs = [EvExecShell "restic snapshots -r /backup-repo";
            EvExecShell "restic init -r /backup-repo"]).
Proof.
  apply (main_start_order (E:=fresh) flags (initial fresh tt));
    [reflexivity | discriminate | discriminate | discriminate | discriminate].
Defined.

(** ** Further properties of [backupTask] *)

(** X5. When the unlock command fails, [backupTask] returns its error and
    no task result; the source directory has not been looked up and the
    backup command has not been run. *)
Theorem backup_unlock_failure {E : Env} (t : Task) (s : State E) bn d out e w :
  repoLock s = false ->
  InputData t !! "backupName" = Some (VString bn) ->
  requested_timeout E t d ->
  run E (unlock_cmd (repoDir s)) (world s) = ((out, Some e), w) ->
  backupTask t s =
  (Returned (None, Some e), finished s w [EvExecShell (unlock_cmd (repoDir s))]).
Proof. intros. now apply (backupTask_unlock_failed t s bn d out e w). Qed.

Lemma backup_unlock_failure_witness :
  let t := task_of [("backupName", VString "db1")] in
  let s := ready unreachable tt in
  backupTask t s =
  (Returned (None, Some "exit status 127"),
   finished s tt [EvExecShell "restic -r /backup-repo unlock"]).
Proof.
  intros t s.
  apply (backup_unlock_failure (E:=unreachable) t s "db1"
           (60 * Duration.Second) EmptyString "exit status 127" tt);
    try reflexivity.
  left. split; reflexivity.
Defined.

(** X6. When the backup command returns an error (a failed run or an
    expired deadline), [backupTask] returns that error and no task result;
    the output of the command is not searched, so a confirmation line in
    it changes nothing. *)
Theorem backup_engine_failure {E : Env} (t : Task) (s : State E)
    bn d out w1 result e w2 :
  repoLock s = false ->
  InputData t !! "backupName" = Some (VString bn) ->
  requested_timeout E t d ->
  run E (unlock_cmd (repoDir s)) (world s) = ((out, None), w1) ->
  IsNotExist (stat E (sourceDir_of bn) w1) = false ->
  run_timeout E d (backup_cmd bn (repoDir s)) w1 = ((result, Some e), w2) ->
  backupTask t s =
  (Returned (None, Some e),
   finished s w2 [EvExecShell (unlock_cmd (repoDir s));
                  EvStat (sourceDir_of bn);
                  EvExecShellTimeout d (backup_cmd bn (repoDir s))]).
Proof.
  intros Hfree Hbn Hd Hunlock Hstat Hrun.
  rewrite (backupTask_unlocked t s bn d out w1) by assumption.
  rewrite (createNewBackup_ran bn d (after_unlock s w1) result (Some e) w2)
    by assumption.
  cbn [fst snd]. normalize_state. reflexivity.
Qed.

Lemma backup_engine_failure_witness :
  let t := task_of [("backupName", VString "db1")] in
  let s := ready confused tt in
  backupTask t s =
  (Returned (None, Some "exit status 127"),
   finished s tt
     [EvExecShell "restic -r /backup-repo unlock";
      EvStat "/backup-source/db1";
      EvExecShellTimeout 60000000000
        "restic backup /backup-source/db1 -r /backup-repo"]).
Proof.
  intros t s.
  apply (backup_engine_failure (E:=confused) t s "db1" (60 * Duration.Second)
           EmptyString tt EmptyString "exit status 127" tt);
    try reflexivity.
  left. split; reflexivity.
Defined.

(** X22. Only a missing path stops a backup before the command: when
    [os.Stat] fails for another reason, the backup command is run all the
    same. *)
Theorem backup_stat_error_proceeds {E : Env} (t : Task) (s : State E)
    bn d out w1 msg :
  repoLock s = false ->
  InputData t !! "backupName" = Some (VString bn) ->
  requested_timeout E t d ->
  run E (unlock_cmd (repoDir s)) (world s) = ((out, None), w1) ->
  stat E (sourceDir_of bn) w1 = Some (EOther msg) ->
  trace (backupTask t s).2 =
  (trace s ++ [EvExecShell (unlock_cmd (repoDir s));
               EvStat (sourceDir_of bn);
               EvExecShellTimeout d (backup_cmd bn (repoDir s))])%list.
Proof.
  intros Hfree Hbn Hd Hunlock Hstat.
  apply (backupTask_passes_timeout t s bn d out w1); try assumption.
  now rewrite Hstat.
Qed.

Lemma backup_stat_error_proceeds_witness :
  let t := task_of [("backupName", VString "db1")] in
  trace (backupTask t (ready denied tt)).2 =
  [EvExecShell "restic -r /backup-repo unlock";
   EvStat "/backup-source/db1";
   EvExecShellTimeout 60000000000
     "restic backup /backup-source/db1 -r /backup-repo"].
Proof.
  intros t.
  apply (backup_stat_error_proceeds (E:=denied) t (ready denied tt) "db1"
           (60 * Duration.Second) EmptyString tt "permission denied");
    try reflexivity.
  left. split; reflexivity.
Defined.

(** X23. An empty [backupName] passes the check on the field: the
    directory looked up is the source root [/backup-source/] itself and,
    when it is there, the backup command is run on it. *)
Theorem backup_empty_name {E : Env} (t : Task) (s : State E) d out w1 :
  repoLock s = false ->
  InputData t !! "backupName" = Some (VString EmptyString) ->
  requested_timeout E t d ->
  run E (unlock_cmd (repoDir s)) (world s) = ((out, None), w1) ->
  IsNotExist (stat E "/backup-source/" w1) = false ->
  trace (backupTask t s).2 =
  (trace s ++ [EvExecShell (unlock_cmd (repoDir s));
               EvStat "/backup-source/";
               EvExecShellTimeout d
                 ("restic backup /backup-source/ -r " ++ repoDir s)])%list.
Proof.
  intros Hfree Hbn Hd Hunlock Hstat.
  now apply (backupTask_passes_timeout t s EmptyString d out w1).
Qed.

Lemma backup_empty_name_witness :
  let t := task_of [("backupName", VString EmptyString)] in
  trace (backupTask t (ready rooted tt)).2 =
  [EvExecShell "restic -r /backup-repo unlock";
   EvStat "/backup-source/";
   EvExecShellTimeout 60000000000
     "restic backup /backup-source/ -r /backup-repo"].
Proof.
  intros t.
  apply (backup_empty_name (E:=rooted) t (ready rooted tt)
           (60 * Duration.Second) EmptyString tt);
    try reflexivity.
  left. split; reflexivity.
Defined.

Lemma finished_nil {E : Env} (s : State E) :
  repoLock s = false -> finished s (world s) [] = s.
Proof.
  destruct s. unfold finished. cbn. intros ->. now rewrite app_nil_r.
Qed.

Lemma backupTask_missing_backupName {E : Env} (t : Task) (s : State E) :
  repoLock s = false ->
  InputData t !! "backupName" = None ->
  backupTask t s = (Returned (None, Some Errors.MissingField), s).
Proof.
  intros Hfree Hbn. unfold backupTask.
  rewrite locked_region by (assumption || keeps_lock_tac).
  rewrite Hbn. cbn. now rewrite set_repoLock_twice.
Qed.

(** Every way through [backupTask] for a request with a string
    [backupName] and a timeout that resolves. *)
Lemma backupTask_run {E : Env} (t : Task) (s : State E) bn d :
  repoLock s = false ->
  InputData t !! "backupName" = Some (VString bn) ->
  requested_timeout E t d ->
  backupTask t s =
  let unlock := EvExecShell (unlock_cmd (repoDir s)) in
  let look := EvStat (sourceDir_of bn) in
  let backup := EvExecShellTimeout d (backup_cmd bn (repoDir s)) in
  match run E (unlock_cmd (repoDir s)) (world s) with
  | ((_, Some e), w) => (Returned (None, Some e), finished s w [unlock])
  | ((_, None), w1) =>
      if IsNotExist (stat E (sourceDir_of bn) w1) then
        (Returned (None, Some (Errors.SourceNotFound (sourceDir_of bn))),
         finished s w1 [unlock; look])
      else
        let '((result, err), w2) :=
          run_timeout E d (backup_cmd bn (repoDir s)) w1 in
        (match err with
         | Some e => Returned (None, Some e)
         | None =>
             match Regexp.find rexSaved result with
             | Some id =>
                 Returned
                   (Some (completed t (<["dataSizeMB" := VInt 111]>
                                         (<["dataId" := VString id]> ∅))),
                    None)
             | None => Panicked (IndexOutOfRange 1 0)
             end
         end, finished s w2 [unlock; look; backup])
  end.
Proof.
  intros Hfree Hbn Hd. cbv zeta.
  destruct (run E (unlock_cmd (repoDir s)) (world s)) as [[out [e |]] w1]
    eqn:Hunlock.
  - now apply (backupTask_unlock_failed t s bn d out e w1).
  - rewrite (backupTask_unlocked t s bn d out w1) by assumption.
    destruct (IsNotExist (stat E (sourceDir_of bn) w1)) eqn:Hstat.
    + rewrite (createNewBackup_missing bn d (after_unlock s w1)) by assumption.
      cbn [fst snd]. normalize_state. reflexivity.
    + destruct (run_timeout E d (backup_cmd bn (repoDir s)) w1)
        as [[result err] w2] eqn:Hrun.
      rewrite (createNewBackup_ran bn d (after_unlock s w1) result err w2)
        by assumption.
      cbv zeta.
      destruct err as [e |]; [| destruct (Regexp.find rexSaved result)];
        cbn [fst snd]; normalize_state; reflexivity.
Qed.

(** X12. What [backupTask] does to the outside is a prefix of one fixed
    sequence: the unlock command, the lookup of the source directory of the
    request, the backup command of the request under the resolved timeout.
    It runs no other command, runs each at most once, and leaves the
    package variables as they were and the mutex free. *)
Theorem backupTask_events {E : Env} (t : Task) (s : State E) :
  repoLock s = false ->
  exists w evs,
    (backupTask t s).2 = finished s w evs /\
    (evs = [] \/
     evs = [EvExecShell (unlock_cmd (repoDir s))] \/
     exists bn,
       InputData t !! "backupName" = Some (VString bn) /\
       (evs = [EvExecShell (unlock_cmd (repoDir s)); EvStat (sourceDir_of bn)] \/
        exists d,
          requested_timeout E t d /\
          evs = [EvExecShell (unlock_cmd (repoDir s));
                 EvStat (sourceDir_of bn);
                 EvExecShellTimeout d (backup_cmd bn (repoDir s))])).
Proof.
  intros Hfree.
  assert (Hnone : forall r, backupTask t s = (r, s) ->
            exists w evs, (backupTask t s).2 = finished s w evs /\
              (evs = [] \/
               evs = [EvExecShell (unlock_cmd (repoDir s))] \/
               exists bn,
                 InputData t !! "backupName" = Some (VString bn) /\
                 (evs = [EvExecShell (unlock_cmd (repoDir s));
                         EvStat (sourceDir_of bn)] \/
                  exists d,
                    requested_timeout E t d /\
                    evs = [EvExecShell (unlock_cmd (repoDir s));
                           EvStat (sourceDir_of bn);
                           EvExecShellTimeout d (backup_cmd bn (repoDir s))]))).
  { intros r Hr. exists (world s), []. rewrite Hr. cbn [snd].
    split; [now rewrite finished_nil | now left]. }
  destruct (InputData t !! "backupName") as [v |] eqn:Hbn;
    [| now apply (Hnone _ (backupTask_missing_backupName t s Hfree Hbn))].
  destruct (string_or_not v) as [[bn ->] | Hty];
    [| now apply (Hnone _ (backupTask_nonstring_backupName t s v Hfree Hbn Hty))].
  destruct (requested_timeout_cases E t) as [[d Hd] | [v [Hv Hty]]];
    [| now apply (Hnone _ (backupTask_nonnumeric_timeout t s bn v Hfree Hbn Hv Hty))].
  rewrite (backupTask_run t s bn d) by assumption. cbv zeta.
  destruct (run E (unlock_cmd (repoDir s)) (world s)) as [[out [e |]] w1].
  - eexists w1, _. split; [reflexivity |]. right. now left.
  - destruct (IsNotExist (stat E (sourceDir_of bn) w1)).
    + eexists w1, _. split; [reflexivity |]. right. right.
      exists bn. split; [reflexivity |]. now left.
    + destruct (run_timeout E d (backup_cmd bn (repoDir s)) w1)
        as [[result err] w2].
      eexists w2, _. split; [reflexivity |]. right. right.
      exists bn. split; [reflexivity |]. right. now exists d.
Qed.

Lemma backupTask_events_witness :
  let t := task_of [("backupName", VString "db1")] in
  let s := ready healthy tt in
  exists w evs,
    (backupTask t s).2 = finished s w evs /\
    (evs = [] \/
     evs = [EvExecShell (unlock_cmd (repoDir s))] \/
     exists bn,
       InputData t !! "backupName" = Some (VString bn) /\
       (evs = [EvExecShell (unlock_cmd (repoDir s)); EvStat (sourceDir_of bn)] \/
        exists d,
          requested_timeout healthy t d /\
          evs = [EvExecShell (unlock_cmd (repoDir s));
                 EvStat (sourceDir_of bn);
                 EvExecShellTimeout d (backup_cmd bn (repoDir s))])).
Proof.
  intros t s. apply (backupTask_events (E:=healthy) t s). reflexivity.
Defined.

(** X15. Whatever the request and the repository, a task result comes out
    of [backupTask] only with no error, completed, with [dataSizeMB] 111
    and a [dataId] that is not empty, is made of characters of the class
    [[0-9a-zA-z]] and was captured from the output of a backup command
    that succeeded, after an unlock command that succeeded. *)
Theorem backupTask_success_inv {E : Env} (t : Task) (s : State E) tr err :
  repoLock s = false ->
  (backupTask t s).1 = Returned (Some tr, err) ->
  err = None /\
  exists id,
    tr = completed t (<["dataSizeMB" := VInt 111]> (<["dataId" := VString id]> ∅)) /\
    id <> EmptyString /\
    Regexp.all_in Regexp.class_0_9a_zA_z id = true /\
    exists bn d out w1 result w2,
      InputData t !! "backupName" = Some (VString bn) /\
      requested_timeout E t d /\
      run E (unlock_cmd (repoDir s)) (world s) = ((out, None), w1) /\
      IsNotExist (stat E (sourceDir_of bn) w1) = false /\
      run_timeout E d (backup_cmd bn (repoDir s)) w1 = ((result, None), w2) /\
      Regexp.find rexSaved result = Some id.
Proof.
  intros Hfree Hret.
  destruct (InputData t !! "backupName") as [v |] eqn:Hbn;
    [| now rewrite backupTask_missing_backupName in Hret].
  destruct (string_or_not v) as [[bn ->] | Hty];
    [| now rewrite (backupTask_nonstring_backupName t s v) in Hret].
  destruct (requested_timeout_cases E t) as [[d Hd] | [v [Hv Hty]]];
    [| now rewrite (backupTask_nonnumeric_timeout t s bn v) in Hret].
  rewrite (backupTask_run t s bn d) in Hret by assumption. cbv zeta in Hret.
  destruct (run E (unlock_cmd (repoDir s)) (world s)) as [[out [e |]] w1]
    eqn:Hunlock; [discriminate |].
  destruct (IsNotExist (stat E (sourceDir_of bn) w1)) eqn:Hstat;
    [discriminate |].
  destruct (run_timeout E d (backup_cmd bn (repoDir s)) w1)
    as [[result [e |]] w2] eqn:Hrun; [discriminate |].
  destruct (Regexp.find rexSaved result) as [id |] eqn:Hfind; [| discriminate].
  cbn [fst] in Hret. injection Hret as <- <-.
  split; [reflexivity |]. exists id. split; [reflexivity |].
  destruct (RegexpFacts.find_sound _ _ _ Hfind) as [before [tail [_ Hat]]].
  destruct Hat as [Hne [Hall _]].
  split; [exact Hne |]. split; [exact Hall |].
  now exists bn, d, out, w1, result, w2.
Qed.

Lemma backupTask_success_inv_witness :
  let t := task_of [("backupName", VString "db1")] in
  exists id,
    id <> EmptyString /\
    Regexp.all_in Regexp.class_0_9a_zA_z id = true /\
    OutputData (completed t (<["dataSizeMB" := VInt 111]>
                               (<["dataId" := VString id]> ∅))) !! "dataId"
    = Some (VString "a1b2c3d").
Proof.
  intros t.
  destruct (backupTask_success_inv (E:=healthy) t (ready healthy tt)
              (completed t (<["dataSizeMB" := VInt 111]>
                              (<["dataId" := VString "a1b2c3d"]> ∅)))
              None eq_refl eq_refl)
    as [_ [id [Htr [Hne [Hall _]]]]].
  exists id. split; [exact Hne |]. split; [exact Hall |].
  now rewrite <- Htr.
Defined.

(** ** Further properties of [removeTask] *)

(** Every way through [removeTask] for a request whose two fields are
    strings. *)
Lemma removeTask_run {E : Env} (t : Task) (s : State E) bn dataID :
  repoLock s = false ->
  InputData t !! "backupName" = Some (VString bn) ->
  InputData t !! "dataId" = Some (VString dataID) ->
  removeTask t s =
  let unlock := EvExecShell (unlock_cmd (repoDir s)) in
  let forget := EvExecShell (forget_cmd dataID (repoDir s)) in
  match run E (unlock_cmd (repoDir s)) (world s) with
  | ((_, Some e), w) => (Returned (None, Some e), finished s w [unlock])
  | ((_, None), w1) =>
      let '((result, err), w2) := run E (forget_cmd dataID (repoDir s)) w1 in
      (Returned
         match err with
         | Some e => (None, Some e)
         | None =>
             match Regexp.find rexRemoved result with
             | None => (None, Some Errors.ResultNotFound)
             | Some got =>
                 if String.eqb got dataID then (Some (completed t ∅), None)
                 else (None, Some (Errors.IdentifierMismatch got dataID))
             end
         end, finished s w2 [unlock; forget])
  end.
Proof.
  intros Hfree Hbn Hdi. cbv zeta.
  destruct (run E (unlock_cmd (repoDir s)) (world s)) as [[out [e |]] w1]
    eqn:Hunlock.
  - now apply (removeTask_unlock_failed t s bn dataID out e w1).
  - rewrite (removeTask_unlocked t s bn dataID out w1) by assumption.
    destruct (run E (forget_cmd dataID (repoDir s)) w1) as [[result err] w2]
      eqn:Hforget.
    rewrite (deleteBackup_ran dataID (after_unlock s w1) result err w2)
      by assumption.
    destruct err as [e |];
      [| destruct (Regexp.find rexRemoved result) as [got |];
         [destruct (String.eqb got dataID) |]];
      normalize_state; reflexivity.
Qed.

(** X7. A remove request without [backupName], or with a string
    [backupName] and without [dataId], is answered with one and the same
    error, whose message names [backupName] in both cases; no command has
    been run. *)
Theorem remove_missing_fields {E : Env} (t : Task) (s : State E) :
  repoLock s = false ->
  InputData t !! "backupName" = None \/
  (exists bn, InputData t !! "backupName" = Some (VString bn) /\
              InputData t !! "dataId" = None) ->
  removeTask t s =
  (Returned (None, Some "'backupName' is required as Input data"), s).
Proof.
  intros Hfree [Hbn | [bn [Hbn Hdi]]].
  - now apply removeTask_missing_backupName.
  - now apply (removeTask_missing_dataId t s bn).
Qed.

Lemma remove_missing_fields_witness :
  let t := task_of [("backupName", VString "db1")] in
  let s := ready healthy tt in
  removeTask t s =
  (Returned (None, Some "'backupName' is required as Input data"), s).
Proof.
  intros t s. apply (remove_missing_fields (E:=healthy) t s eq_refl).
  right. exists "db1". split; reflexivity.
Defined.

(** X8. When the unlock command fails, [removeTask] returns its error and
    no task result, and the forget command has not been run. *)
Theorem remove_unlock_failure {E : Env} (t : Task) (s : State E)
    bn dataID out e w :
  repoLock s = false ->
  InputData t !! "backupName" = Some (VString bn) ->
  InputData t !! "dataId" = Some (VString dataID) ->
  run E (unlock_cmd (repoDir s)) (world s) = ((out, Some e), w) ->
  removeTask t s =
  (Returned (None, Some e), finished s w [EvExecShell (unlock_cmd (repoDir s))]).
Proof. intros. now apply (removeTask_unlock_failed t s bn dataID out e w). Qed.

Lemma remove_unlock_failure_witness :
  let t := task_of [("backupName", VString "db1");
                    ("dataId", VString "a1b2c3d")] in
  let s := ready unreachable tt in
  removeTask t s =
  (Returned (None, Some "exit status 127"),
   finished s tt [EvExecShell "restic -r /backup-repo unlock"]).
Proof.
  intros t s.
  apply (remove_unlock_failure (E:=unreachable) t s "db1" "a1b2c3d"
           EmptyString "exit status 127" tt); reflexivity.
Defined.

(** X9. When the forget command returns an error, [removeTask] returns
    that error and no task result, whatever the command printed. *)
Theorem remove_engine_failure {E : Env} (t : Task) (s : State E)
    bn dataID out w1 result e w2 :
  repoLock s = false ->
  InputData t !! "backupName" = Some (VString bn) ->
  InputData t !! "dataId" = Some (VString dataID) ->
  run E (unlock_cmd (repoDir s)) (world s) = ((out, None), w1) ->
  run E (forget_cmd dataID (repoDir s)) w1 = ((result, Some e), w2) ->
  removeTask t s =
  (Returned (None, Some e),
   finished s w2 [EvExecShell (unlock_cmd (repoDir s));
                  EvExecShell (forget_cmd dataID (repoDir s))]).
Proof.
  intros Hfree Hbn Hdi Hunlock Hforget.
  rewrite (removeTask_run t s bn dataID) by assumption. cbv zeta.
  now rewrite Hunlock, Hforget.
Qed.

Lemma remove_engine_failure_witness :
  let t := task_of [("backupName", VString "db1");
                    ("dataId", VString "a1b2c3d")] in
  let s := ready silent tt in
  removeTask t s =
  (Returned (None, Some "exit status 127"),
   finished s tt [EvExecShell "restic -r /backup-repo unlock";
                  EvExecShell "restic forget a1b2c3d -r /backup-repo"]).
Proof.
  intros t s.
  apply (remove_engine_failure (E:=silent) t s "db1" "a1b2c3d"
           EmptyString tt EmptyString "exit status 127" tt); reflexivity.
Defined.

(** X10. When the forget command succeeds and the pattern
    ["removed snapshot ([0-9a-zA-z]+)"] does not match its output,
    [removeTask] returns
    the error ["Couldn't find returned id from response"] and no task
    result: the missing confirmation is an error value here, not a
    panic. *)
Theorem remove_unconfirmed {E : Env} (t : Task) (s : State E)
    bn dataID out w1 result w2 :
  repoLock s = false ->
  InputData t !! "backupName" = Some (VString bn) ->
  InputData t !! "dataId" = Some (VString dataID) ->
  run E (unlock_cmd (repoDir s)) (world s) = ((out, None), w1) ->
  run E (forget_cmd dataID (repoDir s)) w1 = ((result, None), w2) ->
  Regexp.FindStringSubmatch rexRemoved result = [] ->
  removeTask t s =
  (Returned (None, Some "Couldn't find returned id from response"),
   finished s w2 [EvExecShell (unlock_cmd (repoDir s));
                  EvExecShell (forget_cmd dataID (repoDir s))]).
Proof.
  intros Hfree Hbn Hdi Hunlock Hforget Hnil.
  assert (Hno : Regexp.find rexRemoved result = None).
  { unfold Regexp.FindStringSubmatch in Hnil.
    now destruct (Regexp.find rexRemoved result). }
  rewrite (removeTask_run t s bn dataID) by assumption. cbv zeta.
  now rewrite Hunlock, Hforget, Hno.
Qed.

Lemma remove_unconfirmed_witness :
  let t := task_of [("backupName", VString "db1");
                    ("dataId", VString "a1b2c3d")] in
  let s := ready mute tt in
  removeTask t s =
  (Returned (None, Some "Couldn't find returned id from response"),
   finished s tt [EvExecShell "restic -r /backup-repo unlock";
                  EvExecShell "restic forget a1b2c3d -r /backup-repo"]).
Proof.
  intros t s.
  apply (remove_unconfirmed (E:=mute) t s "db1" "a1b2c3d"
           EmptyString tt EmptyString tt); reflexivity.
Defined.

Lemma completed_TaskId (t t' : Task) (output : gmap string Value) :
  TaskId t = TaskId t' -> completed t output = completed t' output.
Proof. unfold completed, NewTaskResult. now intros ->. Qed.

(** X11. [backupName] only has to be a string for [removeTask]: two
    remove requests of one task that carry the same [dataId] and any two
    strings as [backupName] have the same outcome and leave the same
    state. *)
Theorem remove_ignores_backupName {E : Env} (t t' : Task) (s : State E) bn bn' :
  repoLock s = false ->
  TaskId t = TaskId t' ->
  InputData t !! "dataId" = InputData t' !! "dataId" ->
  InputData t !! "backupName" = Some (VString bn) ->
  InputData t' !! "backupName" = Some (VString bn') ->
  removeTask t s = removeTask t' s.
Proof.
  intros Hfree Hid Hdi Hbn Hbn'.
  destruct (InputData t !! "dataId") as [v |] eqn:Hv; symmetry in Hdi.
  - destruct (string_or_not v) as [[dataID ->] | Hty].
    + rewrite (removeTask_run t s bn dataID), (removeTask_run t' s bn' dataID)
        by assumption.
      now rewrite (completed_TaskId t t' ∅ Hid).
    + rewrite (removeTask_nonstring_dataId t s bn v),
        (removeTask_nonstring_dataId t' s bn' v) by assumption.
      reflexivity.
  - rewrite (removeTask_missing_dataId t s bn),
      (removeTask_missing_dataId t' s bn') by assumption.
    reflexivity.
Qed.

Lemma remove_ignores_backupName_witness :
  let t := task_of [("backupName", VString "db1");
                    ("dataId", VString "a1b2c3d")] in
  let t' := task_of [("backupName", VString "anything else");
                     ("dataId", VString "a1b2c3d")] in
  removeTask t (ready healthy tt) = removeTask t' (ready healthy tt).
Proof.
  intros t t'.
  apply (remove_ignores_backupName (E:=healthy) t t' (ready healthy tt)
           "db1" "anything else"); reflexivity.
Defined.

(** X13. What [removeTask] does to the outside is a prefix of the unlock
    command followed by the forget command of the requested [dataId]: it
    looks up no file, runs no command under a deadline, runs no other
    command, and leaves the package variables as they were and the mutex
    free. *)
Theorem removeTask_events {E : Env} (t : Task) (s : State E) :
  repoLock s = false ->
  exists w evs,
    (removeTask t s).2 = finished s w evs /\
    (evs = [] \/
     evs = [EvExecShell (unlock_cmd (repoDir s))] \/
     exists dataID,
       InputData t !! "dataId" = Some (VString dataID) /\
       evs = [EvExecShell (unlock_cmd (repoDir s));
              EvExecShell (forget_cmd dataID (repoDir s))]).
Proof.
  intros Hfree.
  assert (Hnone : forall r, removeTask t s = (r, s) ->
            exists w evs, (removeTask t s).2 = finished s w evs /\
              (evs = [] \/
               evs = [EvExecShell (unlock_cmd (repoDir s))] \/
               exists dataID,
                 InputData t !! "dataId" = Some (VString dataID) /\
                 evs = [EvExecShell (unlock_cmd (repoDir s));
                        EvExecShell (forget_cmd dataID (repoDir s))])).
  { intros r Hr. exists (world s), []. rewrite Hr. cbn [snd].
    split; [now rewrite finished_nil | now left]. }
  destruct (InputData t !! "backupName") as [v |] eqn:Hbn;
    [| now apply (Hnone _ (removeTask_missing_backupName t s Hfree Hbn))].
  destruct (string_or_not v) as [[bn ->] | Hty];
    [| now apply (Hnone _ (removeTask_nonstring_backupName t s v Hfree Hbn Hty))].
  destruct (InputData t !! "dataId") as [v' |] eqn:Hdi;
    [| now apply (Hnone _ (removeTask_missing_dataId t s bn Hfree Hbn Hdi))].
  destruct (string_or_not v') as [[dataID ->] | Hty];
    [| now apply (Hnone _ (removeTask_nonstring_dataId t s bn v' Hfree Hbn Hdi Hty))].
  rewrite (removeTask_run t s bn dataID) by assumption. cbv zeta.
  destruct (run E (unlock_cmd (repoDir s)) (world s)) as [[out [e |]] w1].
  - eexists w1, _. split; [reflexivity |]. right. now left.
  - destruct (run E (forget_cmd dataID (repoDir s)) w1) as [[result err] w2].
    eexists w2, _. split; [reflexivity |]. right. right. now exists dataID.
Qed.

Lemma removeTask_events_witness :
  let t := task_of [("backupName", VString "db1");
                    ("dataId", VString "a1b2c3d")] in
  let s := ready healthy tt in
  exists w evs,
    (removeTask t s).2 = finished s w evs /\
    (evs = [] \/
     evs = [EvExecShell (unlock_cmd (repoDir s))] \/
     exists dataID,
       InputData t !! "dataId" = Some (VString dataID) /\
       evs = [EvExecShell (unlock_cmd (repoDir s));
              EvExecShell (forget_cmd dataID (repoDir s))]).
Proof.
  intros t s. apply (removeTask_events (E:=healthy) t s). reflexivity.
Defined.

(** X16. Whatever the request and the repository, a task result comes out
    of [removeTask] only completed, empty and with no error, for a [dataId]
    that is a non-empty string of characters of the class [[0-9a-zA-z]],
    after an unlock command and a forget command that succeeded, the
    output of the latter giving back that very [dataId]. *)
Theorem remove_success_inv {E : Env} (t : Task) (s : State E) tr err :
  repoLock s = false ->
  (removeTask t s).1 = Returned (Some tr, err) ->
  err = None /\ tr = completed t ∅ /\
  exists dataID,
    InputData t !! "dataId" = Some (VString dataID) /\
    dataID <> EmptyString /\
    Regexp.all_in Regexp.class_0_9a_zA_z dataID = true /\
    exists bn out w1 result w2,
      InputData t !! "backupName" = Some (VString bn) /\
      run E (unlock_cmd (repoDir s)) (world s) = ((out, None), w1) /\
      run E (forget_cmd dataID (repoDir s)) w1 = ((result, None), w2) /\
      Regexp.find rexRemoved result = Some dataID.
Proof.
  intros Hfree Hret.
  destruct (removeTask_success_inv t s tr err Hfree Hret)
    as [bn [dataID [out [w1 [result [w2 H]]]]]].
  destruct H as [Hbn [Hdi [Hunlock [Hforget [Hfind [-> ->]]]]]].
  split; [reflexivity |]. split; [reflexivity |].
  exists dataID. split; [exact Hdi |].
  destruct (RegexpFacts.find_sound _ _ _ Hfind) as [before [tail [_ Hat]]].
  destruct Hat as [Hne [Hall _]].
  split; [exact Hne |]. split; [exact Hall |].
  now exists bn, out, w1, result, w2.
Qed.

Lemma remove_success_inv_witness :
  let t := task_of [("backupName", VString "db1");
                    ("dataId", VString "a1b2c3d")] in
  exists dataID,
    InputData t !! "dataId" = Some (VString dataID) /\
    dataID <> EmptyString /\
    Regexp.all_in Regexp.class_0_9a_zA_z dataID = true.
Proof.
  intros t.
  destruct (remove_success_inv (E:=healthy) t (ready healthy tt)
              (completed t ∅) None eq_refl eq_refl)
    as [_ [_ [dataID [Hdi [Hne [Hall _]]]]]].
  now exists dataID.
Defined.

Lemma append_longer (a more : string) :
  more <> EmptyString -> a ++ more <> a.
Proof.
  intros Hne. induction a as [| c a IH].
  - exact Hne.
  - change (String c a ++ more) with (String c (a ++ more)).
    intros [= H]. now apply IH.
Qed.

(** X17. The identifier of the confirmation has to be the requested one,
    not to start with it: when the forget command confirms the removal of
    an identifier that goes on after the requested [dataId], [removeTask]
    returns the mismatch error. *)
Theorem remove_longer_identifier_rejected {E : Env} (t : Task) (s : State E)
    bn dataID more out w1 w2 :
  repoLock s = false ->
  InputData t !! "backupName" = Some (VString bn) ->
  InputData t !! "dataId" = Some (VString dataID) ->
  more <> EmptyString ->
  Regexp.all_in Regexp.class_0_9a_zA_z (dataID ++ more) = true ->
  run E (unlock_cmd (repoDir s)) (world s) = ((out, None), w1) ->
  run E (forget_cmd dataID (repoDir s)) w1 =
    (("removed snapshot " ++ dataID ++ more, None), w2) ->
  removeTask t s =
  (Returned (None, Some (Errors.IdentifierMismatch (dataID ++ more) dataID)),
   finished s w2 [EvExecShell (unlock_cmd (repoDir s));
                  EvExecShell (forget_cmd dataID (repoDir s))]).
Proof.
  intros Hfree Hbn Hdi Hmore Hall Hunlock Hforget.
  assert (Hne : dataID ++ more <> EmptyString).
  { destruct dataID; [exact Hmore | discriminate]. }
  pose proof (removed_line (dataID ++ more) Hne Hall) as Hline.
  assert (Hfind : Regexp.find rexRemoved ("removed snapshot " ++ dataID ++ more)
                  = Some (dataID ++ more)).
  { unfold Regexp.FindStringSubmatch in Hline.
    destruct (Regexp.find rexRemoved _); [| discriminate].
    now injection Hline as _ ->. }
  rewrite (removeTask_run t s bn dataID) by assumption. cbv zeta.
  rewrite Hunlock, Hforget, Hfind.
  assert (Hneq : String.eqb (dataID ++ more) dataID = false)
    by (apply String.eqb_neq; now apply append_longer).
  now rewrite Hneq.
Qed.

Lemma remove_longer_identifier_rejected_witness :
  let t := task_of [("backupName", VString "db1");
                    ("dataId", VString "a1b2c3d")] in
  let s := ready longer tt in
  removeTask t s =
  (Returned (None, Some "Returned id from forget is different from requested. a1b2c3d8 != a1b2c3d"),
   finished s tt [EvExecShell "restic -r /backup-repo unlock";
                  EvExecShell "restic forget a1b2c3d -r /backup-repo"]).
Proof.
  intros t s.
  apply (remove_longer_identifier_rejected (E:=longer) t s "db1" "a1b2c3d" "8"
           EmptyString tt tt); try reflexivity.
  discriminate.
Defined.

(** ** The variables the handlers do not read *)

Section SilentUpdate.

Context {E : Env} (upd : State E -> State E) (Hupd : silent_update upd).

Lemma unaffected_ret {A} (a : A) : unaffected_by upd (ret a).
Proof. intros s. reflexivity. Qed.

Lemma unaffected_panic {A} v : unaffected_by upd (@panic E A v).
Proof. intros s. reflexivity. Qed.

Lemma unaffected_repoDir : unaffected_by upd (gets repoDir).
Proof. intros s. unfold gets. now rewrite (upd_repoDir upd Hupd). Qed.

Lemma unaffected_bind {A B} (m : M E A) (k : A -> M E B) :
  unaffected_by upd m -> (forall a, unaffected_by upd (k a)) ->
  unaffected_by upd (bind m k).
Proof.
  intros Hm Hk s. unfold bind. rewrite Hm.
  destruct (m s) as [[a | v |] s']; try reflexivity. apply Hk.
Qed.

Lemma unaffected_defer {A} (d : M E unit) (body : M E A) :
  unaffected_by upd d -> unaffected_by upd body ->
  unaffected_by upd (defer d body).
Proof.
  intros Hd Hb s. unfold defer. rewrite Hb.
  destruct (body s) as [[a | v |] s']; try reflexivity;
    rewrite Hd; now destruct (d s') as [[[] | v' |] s''].
Qed.

Lemma unaffected_Lock : unaffected_by upd Lock.
Proof.
  intros s. unfold Lock. rewrite (upd_repoLock upd Hupd).
  destruct (repoLock s); [reflexivity |].
  now rewrite (upd_set_repoLock upd Hupd).
Qed.

Lemma unaffected_Unlock : unaffected_by upd Unlock.
Proof.
  intros s. unfold Unlock. rewrite (upd_repoLock upd Hupd).
  destruct (repoLock s); [| reflexivity].
  now rewrite (upd_set_repoLock upd Hupd).
Qed.

Lemma unaffected_ExecShellf cmd : unaffected_by upd (ExecShellf cmd).
Proof.
  intros s. unfold ExecShellf. rewrite (upd_world upd Hupd).
  destruct (run E cmd (world s)) as [r w].
  now rewrite (upd_set_world upd Hupd), (upd_emit upd Hupd).
Qed.

Lemma unaffected_ExecShellfTimeout d cmd :
  unaffected_by upd (ExecShellfTimeout d cmd).
Proof.
  intros s. unfold ExecShellfTimeout. rewrite (upd_world upd Hupd).
  destruct (run_timeout E d cmd (world s)) as [r w].
  now rewrite (upd_set_world upd Hupd), (upd_emit upd Hupd).
Qed.

Lemma unaffected_os_Stat path : unaffected_by upd (os_Stat path).
Proof.
  intros s. unfold os_Stat.
  now rewrite (upd_world upd Hupd), (upd_emit upd Hupd).
Qed.

Lemma unaffected_assert_string v : unaffected_by upd (assert_string v).
Proof. intros s. now destruct v. Qed.

Lemma unaffected_assert_float64 v : unaffected_by upd (assert_float64 v).
Proof. intros s. now destruct v. Qed.

Lemma unaffected_index l i : unaffected_by upd (index l i).
Proof. intros s. unfold index. now destruct (l !! i). Qed.

(** The three functions that take the mutex read [repoDir] and nothing
    else of the package variables. *)
Lemma unaffected_handlers (t : Task) :
  unaffected_by upd (backupTask t) /\
  unaffected_by upd (removeTask t) /\
  unaffected_by upd initRepo.
Proof.
  pose proof unaffected_repoDir. pose proof unaffected_Lock.
  pose proof unaffected_Unlock.
  unfold backupTask, removeTask, initRepo, resolveCreateTimeout,
    createNewBackup, deleteBackup.
  repeat split;
    repeat first
      [ assumption
      | apply unaffected_ret | apply unaffected_panic
      | apply unaffected_ExecShellf | apply unaffected_ExecShellfTimeout
      | apply unaffected_os_Stat | apply unaffected_assert_string
      | apply unaffected_assert_float64 | apply unaffected_index
      | apply unaffected_bind; [| intros ]
      | apply unaffected_defer
      | match goal with
        | |- unaffected_by _ (match ?x with _ => _ end) => destruct x
        | |- unaffected_by _ (if ?x then _ else _) => destruct x
        end ].
Qed.

End SilentUpdate.

Lemma silent_password_and_source {E : Env} (p q : string) :
  silent_update (E:=E) (fun s => set_resticPassword p (set_sourcePath q s)).
Proof. split; reflexivity. Qed.

(** X14. Neither [resticPassword] nor [sourcePath] reaches a command: with
    any other values in the two variables, [backupTask], [removeTask] and
    [initRepo] have the same outcome, run the same commands on the same
    world and leave the same trace. *)
Theorem handlers_ignore_password_and_source {E : Env}
    (p q : string) (t : Task) (s : State E) :
  let upd := fun s => set_resticPassword p (set_sourcePath q s) in
  backupTask t (upd s) = ((backupTask t s).1, upd (backupTask t s).2) /\
  removeTask t (upd s) = ((removeTask t s).1, upd (removeTask t s).2) /\
  initRepo (upd s) = ((initRepo s).1, upd (initRepo s).2).
Proof.
  intros upd.
  destruct (unaffected_handlers upd (silent_password_and_source p q) t)
    as [Hb [Hr Hi]].
  split; [| split].
  - rewrite (Hb s). now destruct (backupTask t s).
  - rewrite (Hr s). now destruct (removeTask t s).
  - rewrite (Hi s). now destruct (initRepo s).
Qed.

(** ** Edges of the timeout *)

(** X18. A [timeoutSeconds] strictly between -1 and 1 is truncated to
    zero: the timeout of the backup command is then the zero duration. *)
Theorem timeout_below_one_second {E : Env} (t : Task) (s : State E) sg m p :
  InputData t !! "timeoutSeconds" = Some (VFloat64 (S754_finite sg m (Z.neg p))) ->
  Z.pos m < 2 ^ Z.pos p ->
  resolveCreateTimeout t s = (Returned 0, s) /\ requested_timeout E t 0.
Proof.
  intros Hto Hsmall.
  assert (Hint : int_of_float64 (unrepresentable E) (S754_finite sg m (Z.neg p)) = 0).
  { apply int_of_float64_trunc; [| reflexivity].
    cbn [float64_trunc]. rewrite Z.div_small by lia. now destruct sg. }
  split.
  - rewrite (resolveCreateTimeout_number t s _ Hto). now rewrite Hint.
  - right. eexists. split; [exact Hto |]. now rewrite Hint.
Qed.

Lemma timeout_below_one_second_witness :
  let t := task_of [("backupName", VString "db1");
                    ("timeoutSeconds", VFloat64 float64_half)] in
  valid_binary 53 1024 float64_half = true /\
  resolveCreateTimeout t (ready healthy tt) = (Returned 0, ready healthy tt).
Proof.
  intros t. split; [reflexivity |].
  refine (proj1 (timeout_below_one_second (E:=healthy) t (ready healthy tt)
                   false 4503599627370496 53 eq_refl _)).
  reflexivity.
Defined.

(** X19. The count of nanoseconds wraps around: a [timeoutSeconds] whose
    truncation [n] has [n * 10^9] between [2^63] and [2^64] (from
    9223372037 seconds on) resolves to the negative duration
    [n * 10^9 - 2^64]. *)
Theorem timeout_overflow_wraps {E : Env} (t : Task) (s : State E) f n :
  InputData t !! "timeoutSeconds" = Some (VFloat64 f) ->
  float64_trunc f = Some n ->
  Int64.in_range n = true ->
  2 ^ 63 <= n * Duration.Second < 2 ^ 64 ->
  resolveCreateTimeout t s = (Returned (n * Duration.Second - 2 ^ 64), s) /\
  n * Duration.Second - 2 ^ 64 < 0.
Proof.
  intros Hto Htr Hn Hband. split; [| lia].
  rewrite (resolveCreateTimeout_number t s f Hto).
  rewrite (int_of_float64_trunc _ f n Htr Hn).
  unfold Int64.mul, Int64.wrap.
  replace (n * Duration.Second + 2 ^ 63)
    with ((n * Duration.Second - 2 ^ 63) + 1 * 2 ^ 64) by lia.
  rewrite Z_mod_plus_full, Z.mod_small by lia.
  do 2 f_equal. lia.
Qed.

Lemma timeout_overflow_wraps_witness :
  let t := task_of [("backupName", VString "db1");
                    ("timeoutSeconds", VFloat64 float64_9223372037)] in
  valid_binary 53 1024 float64_9223372037 = true /\
  resolveCreateTimeout t (ready healthy tt) =
  (Returned (-9223372036709551616), ready healthy tt).
Proof.
  intros t. split; [reflexivity |].
  refine (proj1 (timeout_overflow_wraps (E:=healthy) t (ready healthy tt)
                   float64_9223372037 9223372037 eq_refl eq_refl eq_refl _)).
  split; [intros H; discriminate H | reflexivity].
Defined.

(** ** The handlers and the mutex *)

(** X20. Taking the mutex is the first thing each function does: entered
    while the mutex is held, [backupTask], [removeTask] and [initRepo] wait
    for it without having looked at the request or run a command. *)
Theorem handlers_wait_for_mutex {E : Env} (t : Task) (s : State E) :
  repoLock s = true ->
  backupTask t s = (Blocked, s) /\
  removeTask t s = (Blocked, s) /\
  initRepo s = (Blocked, s).
Proof.
  intros Hheld.
  unfold backupTask, removeTask, initRepo, bind, Lock.
  now rewrite Hheld.
Qed.

Lemma handlers_wait_for_mutex_witness :
  let t := task_of [("backupName", VString "db1")] in
  let s := set_repoLock true (ready healthy tt) in
  backupTask t s = (Blocked, s) /\
  removeTask t s = (Blocked, s) /\
  initRepo s = (Blocked, s).
Proof.
  intros t s. apply (handlers_wait_for_mutex (E:=healthy) t s). reflexivity.
Defined.

(** X21. A backup and the removal of what it made compose: after a
    [backupTask] that returned the identifier [id], with the mutex free
    again, a [removeTask] asked for [id] on a repository that confirms the
    removal of [id] returns the completed, empty result; between them they
    have run the unlock command, looked up the directory, run the backup
    command, the unlock command again and the forget command of [id]. *)
Theorem backup_then_remove {E : Env} (t t' : Task) (s : State E)
    bn d out1 w1 result w2 whole id bn' out2 w3 result' w4 whole' :
  repoLock s = false ->
  InputData t !! "backupName" = Some (VString bn) ->
  requested_timeout E t d ->
  run E (unlock_cmd (repoDir s)) (world s) = ((out1, None), w1) ->
  IsNotExist (stat E (sourceDir_of bn) w1) = false ->
  run_timeout E d (backup_cmd bn (repoDir s)) w1 = ((result, None), w2) ->
  Regexp.FindStringSubmatch rexSaved result = [whole; id] ->
  InputData t' !! "backupName" = Some (VString bn') ->
  InputData t' !! "dataId" = Some (VString id) ->
  run E (unlock_cmd (repoDir s)) w2 = ((out2, None), w3) ->
  run E (forget_cmd id (repoDir s)) w3 = ((result', None), w4) ->
  Regexp.FindStringSubmatch rexRemoved result' = [whole'; id] ->
  (backupTask t s).1 =
  Returned (Some (completed t (<["dataSizeMB" := VInt 111]>
                                 (<["dataId" := VString id]> ∅))), None) /\
  removeTask t' (backupTask t s).2 =
  (Returned (Some (completed t' ∅), None),
   finished s w4 [EvExecShell (unlock_cmd (repoDir s));
                  EvStat (sourceDir_of bn);
                  EvExecShellTimeout d (backup_cmd bn (repoDir s));
                  EvExecShell (unlock_cmd (repoDir s));
                  EvExecShell (forget_cmd id (repoDir s))]).
Proof.
  intros Hfree Hbn Hd Hunlock Hstat Hrun Hsaved Hbn' Hdi Hunlock' Hforget Hremoved.
  assert (Hid : Regexp.find rexSaved result = Some id).
  { unfold Regexp.FindStringSubmatch in Hsaved.
    destruct (Regexp.find rexSaved result); [| discriminate].
    now injection Hsaved as _ ->. }
  assert (Hid' : Regexp.find rexRemoved result' = Some id).
  { unfold Regexp.FindStringSubmatch in Hremoved.
    destruct (Regexp.find rexRemoved result'); [| discriminate].
    now injection Hremoved as _ ->. }
  rewrite (backupTask_run t s bn d) by assumption. cbv zeta.
  rewrite Hunlock, Hstat, Hrun, Hid. cbn [fst snd].
  split; [reflexivity |].
  rewrite (removeTask_run t' _ bn' id) by (assumption || reflexivity).
  cbv zeta. cbn [repoDir world finished].
  rewrite Hunlock', Hforget, Hid', String.eqb_refl.
  normalize_state. reflexivity.
Qed.

Lemma backup_then_remove_witness :
  let t := task_of [("backupName", VString "db1")] in
  let t' := task_of [("backupName", VString "db1");
                     ("dataId", VString "a1b2c3d")] in
  let s := ready healthy tt in
  removeTask t' (backupTask t s).2 =
  (Returned (Some (completed t' ∅), None),
   finished s tt [EvExecShell "restic -r /backup-repo unlock";
                  EvStat "/backup-source/db1";
                  EvExecShellTimeout 60000000000
                    "restic backup /backup-source/db1 -r /backup-repo";
                  EvExecShell "restic -r /backup-repo unlock";
                  EvExecShell "restic forget a1b2c3d -r /backup-repo"]).
Proof.
  intros t t' s.
  refine (proj2 (backup_then_remove (E:=healthy) t t' s
                   "db1" (60 * Duration.Second) EmptyString tt
                   "snapshot a1b2c3d saved" tt "snapshot a1b2c3d saved" "a1b2c3d"
                   "db1" EmptyString tt "removed snapshot a1b2c3d" tt
                   "removed snapshot a1b2c3d"
                   eq_refl eq_refl _ eq_refl eq_refl eq_refl eq_refl
                   eq_refl eq_refl eq_refl eq_refl eq_refl)).
  left. split; reflexivity.
Defined.

(** ** The confirmation patterns *)

(** X24. The first confirmation decides: when the output of the backup
    command starts with ["snapshot <id> saved"], for a non-empty [id] made
    of characters of the class, [id] is what is captured, whatever follows,
    later confirmation lines included. *)
Theorem first_confirmation_wins (id rest : string) :
  id <> EmptyString ->
  Regexp.all_in Regexp.class_0_9a_zA_z id = true ->
  Regexp.FindStringSubmatch rexSaved ("snapshot " ++ id ++ " saved" ++ rest)
  = ["snapshot " ++ id ++ " saved"; id].
Proof.
  intros Hne Hall.
  now apply (RegexpFacts.find_at_head rexSaved id rest).
Qed.

Lemma first_confirmation_wins_witness :
  Regexp.FindStringSubmatch rexSaved
    "snapshot a1b2c3d saved, snapshot 0f3a9c1e saved"
  = ["snapshot a1b2c3d saved"; "a1b2c3d"].
Proof.
  apply (first_confirmation_wins "a1b2c3d" ", snapshot 0f3a9c1e saved");
    [discriminate | reflexivity].
Defined.

(** X25. The two outcomes of a search with either pattern: no element,
    exactly when the text holds no occurrence of the pattern; or two
    elements, the matched text and its group, the group being non-empty,
    made of characters of the class and part of the text between the two
    literals of the pattern.  So [len(id) == 2] is the test for an
    occurrence and [id[1]] is in range exactly then. *)
Theorem FindStringSubmatch_shape (r : Regexp.t) (s : string) :
  (Regexp.FindStringSubmatch r s = [] /\ ~ Regexp.occurs r s) \/
  (exists g before rest,
     Regexp.FindStringSubmatch r s
     = [Regexp.pre r ++ g ++ Regexp.post r; g] /\
     g <> EmptyString /\
     Regexp.all_in (Regexp.class r) g = true /\
     s = before ++ Regexp.pre r ++ g ++ Regexp.post r ++ rest).
Proof.
  unfold Regexp.FindStringSubmatch.
  destruct (Regexp.find r s) as [g |] eqn:Hfind.
  - right.
    destruct (RegexpFacts.find_sound r s g Hfind)
      as [before [tail [-> [Hne [Hall [rest ->]]]]]].
    now exists g, before, rest.
  - left. split; [reflexivity | now apply RegexpFacts.find_none_iff].
Qed.
